(** * EmergentDB TypeScript SDK: the request/response contract layer

    A shallow embedding of [typescript/src/index.ts]: the response and input
    schemas, the error class, the private [request] method and the public
    operations [insert], [batchInsert], [batchInsertAll], [search] and
    [delete], followed by the properties of that code.

    Conventions of the embedding.
    - A JavaScript [number] is a rational ([Q]); the numbers that passed
      [.int()] are kept as [Z].  Sums of such integers are exact in
      JavaScript as long as they stay in the safe-integer range.
    - An optional argument or a missing object key is [None] ([undefined]).
    - [await fetch] is the only effect.  A computation of the client is a
      function of the network (which answers a request knowing the requests
      sent before it) and of the log of requests sent so far; it returns an
      outcome (a value or a thrown exception) and the new log.
    - The schema library ([dhi], an external Zod-compatible package) is
      modelled by parser combinators with Zod's semantics. *)

From Stdlib Require Import String Ascii List ZArith QArith Bool Arith Lia.
From Stdlib Require Import DecimalString.
From Equations Require Import Equations.
Import ListNotations.
Local Close Scope Q_scope.
Local Open Scope string_scope.
Local Open Scope list_scope.
Local Open Scope nat_scope.

Set Implicit Arguments.
Set Warnings "-register-all".

(** ** JSON values *)

Inductive json : Type :=
| JNull
| JBool (b : bool)
| JNum (q : Q)
| JStr (s : string)
| JArr (items : list json)
| JObj (fields : list (string * json)).

(** Own-property lookup in an object literal or a decoded JSON object
    (keys are unique there, so the first binding is the binding). *)
Fixpoint lookup (key : string) (fields : list (string * json)) : option json :=
  match fields with
  | [] => None
  | (k, v) :: rest => if String.eqb k key then Some v else lookup key rest
  end.

(** [JSON.stringify] of an object literal: a property whose value is
    [undefined] is left out. *)
Fixpoint stringify_fields (props : list (string * option json))
  : list (string * json) :=
  match props with
  | [] => []
  | (k, Some v) :: rest => (k, v) :: stringify_fields rest
  | (_, None) :: rest => stringify_fields rest
  end.

(** JavaScript [ToBoolean] on a possibly undefined value. *)
Definition truthy (v : option json) : bool :=
  match v with
  | None => false
  | Some JNull => false
  | Some (JBool b) => b
  | Some (JNum q) => negb (Qeq_bool q 0)
  | Some (JStr s) => negb (String.eqb s EmptyString)
  | Some (JArr _) => true
  | Some (JObj _) => true
  end.

(** [a || b] where [b] is defined. *)
Definition js_or (a : option json) (b : json) : json :=
  match a with
  | Some v => if truthy a then v else b
  | None => b
  end.

(** [array.slice(start, end)] for indices [0 <= start <= end]. *)
Definition slice {A : Type} (start stop : nat) (l : list A) : list A :=
  firstn (stop - start) (skipn start l).

(** Decimal rendering of a non-negative integer, as a template literal
    renders it. *)
Definition nat_to_string (n : nat) : string :=
  NilZero.string_of_uint (Nat.to_uint n).

(** ** Exceptions and the client monad *)

(** [class EmergentDBError extends Error].  [message] is the value handed to
    the [Error] constructor, which stores its string conversion: a string is
    stored as it is. *)
Record EmergentDBError : Type := mkEmergentDBError {
  message : json;
  status : nat;
  body : json
}.

Inductive exn : Type :=
| ThrowEmergentDBError (e : EmergentDBError)  (* non-success HTTP status *)
| ThrowError (msg : string)                   (* [new Error(msg)] *)
| ThrowSchemaError                            (* raised by [schema.parse] *)
| ThrowTypeError                              (* property read on [null] *)
| ThrowSyntaxError                            (* [resp.json()] on a non-JSON body *)
| ThrowFetchError.                            (* [fetch] rejected *)

Inductive outcome (A : Type) : Type :=
| Ok (a : A)
| Throw (e : exn).
Arguments Ok {A} a.
Arguments Throw {A} e.

Record HttpRequest : Type := mkRequest {
  req_method : string;
  req_url : string;
  req_headers : list (string * string);
  req_body : option json
}.

(** A response: its status and its body once decoded by [resp.json()]
    ([None] when the body is not JSON). *)
Record HttpResponse : Type := mkResponse {
  resp_status : nat;
  resp_json : option json
}.

Definition resp_ok (r : HttpResponse) : bool :=
  (200 <=? resp_status r) && (resp_status r <=? 299).

(** The remote side: what [fetch] yields for a request, given the requests
    that were sent before it ([None] when the promise is rejected). *)
Definition Network : Type := list HttpRequest -> HttpRequest -> option HttpResponse.

Definition Client (A : Type) : Type :=
  Network -> list HttpRequest -> outcome A * list HttpRequest.

Definition ret {A} (a : A) : Client A := fun _ log => (Ok a, log).

Definition throw {A} (e : exn) : Client A := fun _ log => (Throw e, log).

Definition bind {A B} (c : Client A) (k : A -> Client B) : Client B :=
  fun net log =>
    match c net log with
    | (Ok a, log') => k a net log'
    | (Throw e, log') => (Throw e, log')
    end.

Notation "x <- c ;; k" := (bind c (fun x => k))
  (at level 61, c at next level, right associativity).

(** [await fetch(url, init)]: the request is sent (appended to the log) and
    the network's answer is returned. *)
Definition fetch (req : HttpRequest) : Client HttpResponse :=
  fun net log =>
    (match net log req with
     | Some resp => Ok resp
     | None => Throw ThrowFetchError
     end, log ++ [req]).

(** [await resp.json()]. *)
Definition json_of (resp : HttpResponse) : Client json :=
  match resp_json resp with
  | Some data => ret data
  | None => throw ThrowSyntaxError
  end.

(** [data.error] for a decoded body: a [TypeError] on [null], the own
    property of an object, [undefined] on anything else. *)
Definition get_error (data : json) : Client (option json) :=
  match data with
  | JNull => throw ThrowTypeError
  | JObj fields => ret (lookup "error" fields)
  | _ => ret None
  end.

(** ** Schemas *)

(** A schema is its [parse]: the input is the value found ([None] for
    [undefined]), the result is the typed value or a validation failure. *)
Definition Schema (T : Type) : Type := option json -> option T.

Definition z_boolean : Schema bool :=
  fun v => match v with Some (JBool b) => Some b | _ => None end.

Definition z_number : Schema Q :=
  fun v => match v with Some (JNum q) => Some q | _ => None end.

Definition z_string : Schema string :=
  fun v => match v with Some (JStr s) => Some s | _ => None end.

Definition z_any : Schema (option json) := fun v => Some v.

(** [z.number().int()] *)
Definition z_int : Schema Z :=
  fun v =>
    match z_number v with
    | Some q => if (Qden (Qred q) =? 1)%positive then Some (Qnum (Qred q)) else None
    | None => None
    end.

(** [.positive()] and [.lte(n)] on an integer schema *)
Definition z_positive (s : Schema Z) : Schema Z :=
  fun v => match s v with
           | Some n => if (0 <? n)%Z then Some n else None
           | None => None
           end.

Definition z_lte (bound : Z) (s : Schema Z) : Schema Z :=
  fun v => match s v with
           | Some n => if (n <=? bound)%Z then Some n else None
           | None => None
           end.

(** [.max(n)] on a string schema *)
Definition z_max (bound : nat) (s : Schema string) : Schema string :=
  fun v => match s v with
           | Some str => if String.length str <=? bound then Some str else None
           | None => None
           end.

(** [.optional()]: [undefined] is accepted as it is. *)
Definition z_optional {T} (s : Schema T) : Schema (option T) :=
  fun v => match v with
           | None => Some None
           | Some _ => match s v with Some t => Some (Some t) | None => None end
           end.

(** [.default(d)]: [undefined] is replaced by [d]. *)
Definition z_default {T} (d : T) (s : Schema T) : Schema T :=
  fun v => match v with
           | None => Some d
           | Some _ => s v
           end.

Fixpoint parse_all {T} (s : Schema T) (items : list json) : option (list T) :=
  match items with
  | [] => Some []
  | x :: rest =>
      match s (Some x), parse_all s rest with
      | Some t, Some ts => Some (t :: ts)
      | _, _ => None
      end
  end.

Definition z_array {T} (s : Schema T) : Schema (list T) :=
  fun v => match v with
           | Some (JArr items) => parse_all s items
           | _ => None
           end.

(** [z.record(z.string(), z.any())]: any object. *)
Definition z_record_any : Schema (list (string * json)) :=
  fun v => match v with Some (JObj fields) => Some fields | _ => None end.

(** [z.object({...})]: the input must be an object; [shape] reads the
    declared keys from it. *)
Definition z_object {T} (shape : (string -> option json) -> option T) : Schema T :=
  fun v => match v with
           | Some (JObj fields) => shape (fun key => lookup key fields)
           | _ => None
           end.

Notation "'let?' x := c 'in' k" :=
  (match c with Some x => k | None => None end)
  (at level 10, x name, c at level 100, k at level 200).

(** *** Response schemas *)

Module InsertResult.
Record t : Type := mk {
  success : bool; id : Z; namespace : string; upserted : bool }.
End InsertResult.

Definition InsertResultSchema : Schema InsertResult.t :=
  z_object (fun get =>
    let? success := z_boolean (get "success") in
    let? id := z_int (get "id") in
    let? namespace := z_string (get "namespace") in
    let? upserted := z_boolean (get "upserted") in
    Some (InsertResult.mk success id namespace upserted)).

Module BatchInsertResult.
Record t : Type := mk {
  success : bool; ids : list Z; count : Z; namespace : string;
  new_count : Z; upserted_count : Z }.
End BatchInsertResult.

Definition BatchInsertResultSchema : Schema BatchInsertResult.t :=
  z_object (fun get =>
    let? success := z_boolean (get "success") in
    let? ids := z_array z_int (get "ids") in
    let? count := z_int (get "count") in
    let? namespace := z_string (get "namespace") in
    let? new_count := z_int (get "new_count") in
    let? upserted_count := z_int (get "upserted_count") in
    Some (BatchInsertResult.mk success ids count namespace new_count upserted_count)).

Module SearchResult.
Record t : Type := mk {
  id : Z; score : Q; metadata : option (list (string * json)) }.
End SearchResult.

Definition SearchResultSchema : Schema SearchResult.t :=
  z_object (fun get =>
    let? id := z_int (get "id") in
    let? score := z_number (get "score") in
    let? metadata := z_optional z_record_any (get "metadata") in
    Some (SearchResult.mk id score metadata)).

Module SearchResponse.
Record t : Type := mk {
  results : list SearchResult.t; count : Z; namespace : string }.
End SearchResponse.

Definition SearchResponseSchema : Schema SearchResponse.t :=
  z_object (fun get =>
    let? results := z_array SearchResultSchema (get "results") in
    let? count := z_int (get "count") in
    let? namespace := z_default "default" z_string (get "namespace") in
    Some (SearchResponse.mk results count namespace)).

Module DeleteResult.
Record t : Type := mk { deleted : bool; id : Z; namespace : string }.
End DeleteResult.

Definition DeleteResultSchema : Schema DeleteResult.t :=
  z_object (fun get =>
    let? deleted := z_boolean (get "deleted") in
    let? id := z_int (get "id") in
    let? namespace := z_string (get "namespace") in
    Some (DeleteResult.mk deleted id namespace)).

(** *** Input schemas and input types *)

(** [SearchOptions]: what the caller passes to [search]. *)
Module SearchOptions.
Record t : Type := mk {
  k : option Q; includeMetadata : option bool; namespace : option string }.

(** The options object as a JavaScript value. *)
Definition to_json (o : t) : json :=
  JObj (stringify_fields
          [("k", option_map JNum (k o));
           ("includeMetadata", option_map JBool (includeMetadata o));
           ("namespace", option_map JStr (namespace o))]).
End SearchOptions.

Definition SearchOptionsSchema
  : Schema (option Z * option bool * option string) :=
  z_object (fun get =>
    let? k := z_optional (z_lte 100 (z_positive z_int)) (get "k") in
    let? includeMetadata := z_optional z_boolean (get "includeMetadata") in
    let? namespace := z_optional (z_max 64 z_string) (get "namespace") in
    Some (k, includeMetadata, namespace)).

(** [VectorEntry]: what the caller passes to the insert operations. *)
Module VectorEntry.
Record t : Type := mk {
  id : Q; vector : list Q; metadata : option (list (string * json)) }.

Definition to_json (e : t) : json :=
  JObj (stringify_fields
          [("id", Some (JNum (id e)));
           ("vector", Some (JArr (map JNum (vector e))));
           ("metadata", option_map JObj (metadata e))]).
End VectorEntry.

Definition VectorEntrySchema
  : Schema (Z * list Q * option (list (string * json))) :=
  z_object (fun get =>
    let? id := z_positive z_int (get "id") in
    let? vector := z_array z_number (get "vector") in
    let? metadata := z_optional z_record_any (get "metadata") in
    Some (id, vector, metadata)).

(** ** The client *)

Record EmergentDB : Type := mkEmergentDB {
  apiKey : string;
  baseUrl : string
}.

Definition dquote : string := String (ascii_of_nat 34) EmptyString.

(** [constructor(apiKey, options?)] *)
Definition new_EmergentDB (key : string) (options_baseUrl : option string)
  : outcome EmergentDB :=
  if (String.eqb key EmptyString) || negb (String.prefix "emdb_" key) then
    Throw (ThrowError ("API key must start with " ++ dquote ++ "emdb_" ++ dquote)%string)
  else
    Ok {| apiKey := key;
          baseUrl := match options_baseUrl with
                     | Some u => u
                     | None => "https://api.emergentdb.com"
                     end |}.

Definition request_headers (self : EmergentDB) : list (string * string) :=
  [("Authorization", ("Bearer " ++ apiKey self)%string);
   ("Content-Type", "application/json");
   ("User-Agent", "emergentdb-js/0.1.0")].

(** [private async request<T>(method, path, schema, body?)] *)
Definition request {T} (self : EmergentDB) (method path : string)
           (schema : Schema T) (payload : option json) : Client T :=
  let url := (baseUrl self ++ path)%string in
  let headers := request_headers self in
  resp <- fetch {| req_method := method;
                   req_url := url;
                   req_headers := headers;
                   req_body := if truthy payload then payload else None |} ;;
  data <- json_of resp ;;
  if negb (resp_ok resp) then
    err <- get_error data ;;
    throw (ThrowEmergentDBError
             {| message := js_or err (JStr ("HTTP " ++ nat_to_string (resp_status resp))%string);
                status := resp_status resp;
                body := data |})
  else
    match schema (Some data) with
    | Some value => ret value
    | None => throw ThrowSchemaError
    end.

(** The spread [...(namespace && namespace !== "default" ? { namespace } : {})]
    that closes the payload of [insert], [batchInsert], [search] and
    [delete]. *)
Definition namespace_spread (namespace : option string)
  : list (string * option json) :=
  match namespace with
  | Some ns =>
      if negb (String.eqb ns EmptyString) && negb (String.eqb ns "default")
      then [("namespace", Some (JStr ns))]
      else []
  | None => []
  end.

Definition insert_payload (id : Q) (vector : list Q)
           (metadata : option (list (string * json)))
           (namespace : option string) : json :=
  JObj (stringify_fields
          ([("id", Some (JNum id));
            ("vector", Some (JArr (map JNum vector)));
            ("metadata", option_map JObj metadata)]
           ++ namespace_spread namespace)).

Definition insert (self : EmergentDB) (id : Q) (vector : list Q)
           (metadata : option (list (string * json)))
           (namespace : option string) : Client InsertResult.t :=
  request self "POST" "/vectors/insert" InsertResultSchema
          (Some (insert_payload id vector metadata namespace)).

Definition batchInsert_payload (vectors : list VectorEntry.t)
           (namespace : option string) : json :=
  JObj (stringify_fields
          ([("vectors", Some (JArr (map VectorEntry.to_json vectors)))]
           ++ namespace_spread namespace)).

Definition batchInsert (self : EmergentDB) (vectors : list VectorEntry.t)
           (namespace : option string) : Client BatchInsertResult.t :=
  if 1000 <? length vectors then
    throw (ThrowError "Batch insert supports max 1000 vectors per request")
  else
    request self "POST" "/vectors/batch_insert" BatchInsertResultSchema
            (Some (batchInsert_payload vectors namespace)).

(** The value [batchInsertAll] resolves to. *)
Module BatchInsertAllResult.
Record t : Type := mk {
  ids : list Z; count : Z; new_count : Z; upserted_count : Z }.
End BatchInsertAllResult.

Definition BATCH_SIZE : nat := 1000.

(** The [for (let i = 0; i < vectors.length; i += BATCH_SIZE)] loop of
    [batchInsertAll], from index [i] on, with the three accumulators. *)
Equations? batchInsertAll_loop (self : EmergentDB)
  (vectors : list VectorEntry.t) (namespace : option string)
  (i : nat) (allIds : list Z) (totalNew totalUpserted : Z)
  : Client BatchInsertAllResult.t by wf (length vectors - i) lt :=
batchInsertAll_loop self vectors namespace i allIds totalNew totalUpserted
  with lt_dec i (length vectors) := {
  | left _ =>
      let chunk := slice i (i + BATCH_SIZE) vectors in
      result <- batchInsert self chunk namespace ;;
      batchInsertAll_loop self vectors namespace (i + BATCH_SIZE)
        (allIds ++ BatchInsertResult.ids result)
        (totalNew + BatchInsertResult.new_count result)%Z
        (totalUpserted + BatchInsertResult.upserted_count result)%Z
  | right _ =>
      ret {| BatchInsertAllResult.ids := allIds;
             BatchInsertAllResult.count := Z.of_nat (length allIds);
             BatchInsertAllResult.new_count := totalNew;
             BatchInsertAllResult.upserted_count := totalUpserted |} }.
Proof. unfold BATCH_SIZE. lia. Qed.

Definition batchInsertAll (self : EmergentDB) (vectors : list VectorEntry.t)
           (namespace : option string) : Client BatchInsertAllResult.t :=
  batchInsertAll_loop self vectors namespace 0 [] 0%Z 0%Z.

Definition search_payload (vector : list Q) (options : option SearchOptions.t)
  : json :=
  JObj (stringify_fields
          ([("vector", Some (JArr (map JNum vector)));
            ("k", Some (JNum match options with
                             | Some {| SearchOptions.k := Some k |} => k
                             | _ => 10%Q
                             end));
            ("include_metadata",
             Some (JBool match options with
                         | Some {| SearchOptions.includeMetadata := Some b |} => b
                         | _ => false
                         end))]
           ++ namespace_spread match options with
                               | Some o => SearchOptions.namespace o
                               | None => None
                               end)).

Definition search (self : EmergentDB) (vector : list Q)
           (options : option SearchOptions.t) : Client SearchResponse.t :=
  request self "POST" "/vectors/search" SearchResponseSchema
          (Some (search_payload vector options)).

Definition delete_payload (id : Q) (namespace : option string) : json :=
  JObj (stringify_fields ([("id", Some (JNum id))] ++ namespace_spread namespace)).

Definition delete (self : EmergentDB) (id : Q) (namespace : option string)
  : Client DeleteResult.t :=
  request self "POST" "/vectors/delete" DeleteResultSchema
          (Some (delete_payload id namespace)).

(** ** Reference definitions used by the statements *)

Definition div_up (a b : nat) : nat := (a + b - 1) / b.

(** The contiguous partition of [l] into chunks of [size] entries: chunk
    number [k] holds the entries of index [k * size] up to, and excluding,
    [k * size + size]; the last chunk may be shorter. *)
Definition chunks {A : Type} (size : nat) (l : list A) : list (list A) :=
  map (fun k => slice (k * size) (k * size + size) l)
      (seq 0 (div_up (length l) size)).

(** One [batchInsert] per chunk, one after the other, stopping at the first
    one that throws. *)
Fixpoint batchInsert_each (self : EmergentDB) (namespace : option string)
         (cs : list (list VectorEntry.t)) : Client (list BatchInsertResult.t) :=
  match cs with
  | [] => ret []
  | c :: rest =>
      r <- batchInsert self c namespace ;;
      rs <- batchInsert_each self namespace rest ;;
      ret (r :: rs)
  end.

Definition sumZ (l : list Z) : Z := fold_right Z.add 0%Z l.

(** The aggregate of the chunk results [rs] on top of accumulators that
    already hold [allIds], [totalNew] and [totalUpserted]. *)
Definition aggregate_from (allIds : list Z) (totalNew totalUpserted : Z)
           (rs : list BatchInsertResult.t) : BatchInsertAllResult.t :=
  let all := allIds ++ concat (map BatchInsertResult.ids rs) in
  {| BatchInsertAllResult.ids := all;
     BatchInsertAllResult.count := Z.of_nat (length all);
     BatchInsertAllResult.new_count :=
       (totalNew + sumZ (map BatchInsertResult.new_count rs))%Z;
     BatchInsertAllResult.upserted_count :=
       (totalUpserted + sumZ (map BatchInsertResult.upserted_count rs))%Z |}.

Definition aggregate (rs : list BatchInsertResult.t) : BatchInsertAllResult.t :=
  aggregate_from [] 0%Z 0%Z rs.

(** The request that [request] hands to [fetch]. *)
Definition request_of (self : EmergentDB) (method path : string)
           (payload : option json) : HttpRequest :=
  {| req_method := method;
     req_url := (baseUrl self ++ path)%string;
     req_headers := request_headers self;
     req_body := if truthy payload then payload else None |}.

Definition batchInsert_request (self : EmergentDB) (namespace : option string)
           (chunk : list VectorEntry.t) : HttpRequest :=
  request_of self "POST" "/vectors/batch_insert"
             (Some (batchInsert_payload chunk namespace)).

(** The [namespace] field of the body of a request, if it has one. *)
Definition wire_namespace (req : HttpRequest) : option json :=
  match req_body req with
  | Some (JObj fields) => lookup "namespace" fields
  | _ => None
  end.


(** The namespace rule of the code: nothing is sent for an absent, an empty
    or the default namespace, any other string is sent as it is. *)
Definition sent_namespace (namespace : option string) : option json :=
  match namespace with
  | None => None
  | Some ns =>
      if String.eqb ns EmptyString then None
      else if String.eqb ns "default" then None
      else Some (JStr ns)
  end.

(** The namespace rule in the spec's words: nothing is sent for an absent or
    the default namespace, every other string is sent as it is. *)
Definition sent_namespace_spec (namespace : option string) : option json :=
  match namespace with
  | None => None
  | Some ns => if String.eqb ns "default" then None else Some (JStr ns)
  end.

(** A JSON number holding the integer [z]. *)
Definition JInt (z : Z) : json := JNum (inject_Z z).

(** The body of a batch-insert response with the given field values. *)
Definition batch_body (success : bool) (ids : list Z) (count : Z)
           (namespace : string) (new_count upserted_count : Z) : json :=
  JObj [("success", JBool success);
        ("ids", JArr (map JInt ids));
        ("count", JInt count);
        ("namespace", JStr namespace);
        ("new_count", JInt new_count);
        ("upserted_count", JInt upserted_count)].

(** The [error] property of a decoded body that is not [null]. *)
Definition error_field (data : json) : option json :=
  match data with
  | JObj fields => lookup "error" fields
  | _ => None
  end.

(** The request sent by [search]. *)
Definition search_request (self : EmergentDB) (vector : list Q)
           (options : option SearchOptions.t) : HttpRequest :=
  request_of self "POST" "/vectors/search" (Some (search_payload vector options)).

(** ** Sample clients, inputs and servers *)

Definition sample_db : EmergentDB :=
  {| apiKey := "emdb_test"; baseUrl := "https://api.emergentdb.com" |}.

Definition sample_entry (n : nat) : VectorEntry.t :=
  {| VectorEntry.id := inject_Z (Z.of_nat n);
     VectorEntry.vector := [];
     VectorEntry.metadata := None |}.

(** Entries with the ids [1], ..., [n]. *)
Definition sample_vectors (n : nat) : list VectorEntry.t :=
  map sample_entry (seq 1 n).

Definition body_vectors (req : HttpRequest) : list json :=
  match req_body req with
  | Some (JObj fields) =>
      match lookup "vectors" fields with
      | Some (JArr entries) => entries
      | _ => []
      end
  | _ => []
  end.

Definition entry_id (entry : json) : json :=
  match entry with
  | JObj fields =>
      match lookup "id" fields with
      | Some v => v
      | None => JNull
      end
  | _ => JNull
  end.

(** A server that answers a batch insert with the ids it was sent, all of
    them new. *)
Definition batch_server : Network :=
  fun _ req =>
    let entries := body_vectors req in
    Some {| resp_status := 200;
            resp_json :=
              Some (JObj [("success", JBool true);
                          ("ids", JArr (map entry_id entries));
                          ("count", JInt (Z.of_nat (length entries)));
                          ("namespace", JStr "default");
                          ("new_count", JInt (Z.of_nat (length entries)));
                          ("upserted_count", JInt 0)]) |}.

(** What [batch_server] makes [batchInsert] return for a chunk of entries
    with integer ids. *)
Definition batch_server_result (chunk : list VectorEntry.t) : BatchInsertResult.t :=
  BatchInsertResult.mk true
    (map (fun e => Qnum (Qred (VectorEntry.id e))) chunk)
    (Z.of_nat (length chunk)) "default" (Z.of_nat (length chunk)) 0.

(** The same server, out of capacity from its second request on. *)
Definition failing_server : Network :=
  fun log req =>
    if length log =? 0 then batch_server log req
    else Some {| resp_status := 402;
                 resp_json := Some (JObj [("error", JStr "capacity exceeded")]) |}.

(** A server whose batch-insert answer is well typed but breaks the
    invariant: one id, a count of five. *)
Definition miscounted_body : json := batch_body true [7%Z] 5 "default" 3 2.

Definition miscounted_result : BatchInsertResult.t :=
  BatchInsertResult.mk true [7%Z] 5 "default" 3 2.

Definition miscounting_server : Network :=
  fun _ _ => Some {| resp_status := 200; resp_json := Some miscounted_body |}.


Definition search_server_no_namespace : Network :=
  fun _ _ =>
    Some {| resp_status := 200;
            resp_json := Some (JObj [("results", JArr []); ("count", JInt 0)]) |}.

Definition search_server_no_count : Network :=
  fun _ _ =>
    Some {| resp_status := 200;
            resp_json := Some (JObj [("results", JArr []);
                                     ("namespace", JStr "default")]) |}.


Fixpoint repeat_char (c : ascii) (n : nat) : string :=
  match n with
  | O => EmptyString
  | S n' => String c (repeat_char c n')
  end.


(** ** The remaining schemas and operations *)

(** [z.union([a, b])]: the first alternative that accepts the value. *)
Definition z_union {A B} (a : Schema A) (b : Schema B) : Schema (A + B) :=
  fun v => match a v with
           | Some x => Some (inl x)
           | None => match b v with
                     | Some y => Some (inr y)
                     | None => None
                     end
           end.

(** [.nullable()]: [null] is accepted as it is. *)
Definition z_nullable {T} (s : Schema T) : Schema (option T) :=
  fun v => match v with
           | Some JNull => Some None
           | _ => match s v with Some t => Some (Some t) | None => None end
           end.

(** A statistic: [z.union([z.string(), z.number()])]. *)
Definition stat : Type := (string + Q)%type.

Definition z_stat : Schema stat := z_union z_string z_number.

Module NamespacesResponse.
Record t : Type := mk { namespaces : list string }.
End NamespacesResponse.

Definition NamespacesResponseSchema : Schema NamespacesResponse.t :=
  z_object (fun get =>
    let? namespaces := z_array z_string (get "namespaces") in
    Some (NamespacesResponse.mk namespaces)).

Module EndpointStats.
Record t : Type := mk {
  endpoint : string; requestCount : stat; totalBytes : stat;
  avgLatencyMs : stat; p95LatencyMs : stat; errorCount : stat }.
End EndpointStats.

Definition EndpointStatsSchema : Schema EndpointStats.t :=
  z_object (fun get =>
    let? endpoint := z_string (get "endpoint") in
    let? requestCount := z_stat (get "requestCount") in
    let? totalBytes := z_stat (get "totalBytes") in
    let? avgLatencyMs := z_stat (get "avgLatencyMs") in
    let? p95LatencyMs := z_stat (get "p95LatencyMs") in
    let? errorCount := z_stat (get "errorCount") in
    Some (EndpointStats.mk endpoint requestCount totalBytes avgLatencyMs
                           p95LatencyMs errorCount)).

Module EndpointsResponse.
Record t : Type := mk { endpoints : list EndpointStats.t }.
End EndpointsResponse.

Definition EndpointsResponseSchema : Schema EndpointsResponse.t :=
  z_object (fun get =>
    let? endpoints := z_array EndpointStatsSchema (get "endpoints") in
    Some (EndpointsResponse.mk endpoints)).

Module NamespaceStats.
Record t : Type := mk {
  namespace : option string; requestCount : stat; totalVectors : stat;
  avgLatencyMs : stat }.
End NamespaceStats.

Definition NamespaceStatsSchema : Schema NamespaceStats.t :=
  z_object (fun get =>
    let? namespace := z_nullable z_string (get "namespace") in
    let? requestCount := z_stat (get "requestCount") in
    let? totalVectors := z_stat (get "totalVectors") in
    let? avgLatencyMs := z_stat (get "avgLatencyMs") in
    Some (NamespaceStats.mk namespace requestCount totalVectors avgLatencyMs)).

Module NamespaceAnalyticsResponse.
Record t : Type := mk { namespaces : list NamespaceStats.t }.
End NamespaceAnalyticsResponse.

Definition NamespaceAnalyticsResponseSchema : Schema NamespaceAnalyticsResponse.t :=
  z_object (fun get =>
    let? namespaces := z_array NamespaceStatsSchema (get "namespaces") in
    Some (NamespaceAnalyticsResponse.mk namespaces)).

Module LatencyEntry.
Record t : Type := mk {
  date : string; p50 : stat; p95 : stat; p99 : stat; requestCount : stat }.
End LatencyEntry.

Definition LatencyEntrySchema : Schema LatencyEntry.t :=
  z_object (fun get =>
    let? date := z_string (get "date") in
    let? p50 := z_stat (get "p50") in
    let? p95 := z_stat (get "p95") in
    let? p99 := z_stat (get "p99") in
    let? requestCount := z_stat (get "requestCount") in
    Some (LatencyEntry.mk date p50 p95 p99 requestCount)).

Module LatencyResponse.
Record t : Type := mk { latency : list LatencyEntry.t }.
End LatencyResponse.

Definition LatencyResponseSchema : Schema LatencyResponse.t :=
  z_object (fun get =>
    let? latency := z_array LatencyEntrySchema (get "latency") in
    Some (LatencyResponse.mk latency)).

Module ErrorEntry.
Record t : Type := mk {
  date : string; totalRequests : stat; errorCount : stat;
  error4xx : stat; error5xx : stat }.
End ErrorEntry.

Definition ErrorEntrySchema : Schema ErrorEntry.t :=
  z_object (fun get =>
    let? date := z_string (get "date") in
    let? totalRequests := z_stat (get "totalRequests") in
    let? errorCount := z_stat (get "errorCount") in
    let? error4xx := z_stat (get "error4xx") in
    let? error5xx := z_stat (get "error5xx") in
    Some (ErrorEntry.mk date totalRequests errorCount error4xx error5xx)).

Module ErrorsResponse.
Record t : Type := mk { errors : list ErrorEntry.t }.
End ErrorsResponse.

Definition ErrorsResponseSchema : Schema ErrorsResponse.t :=
  z_object (fun get =>
    let? errors := z_array ErrorEntrySchema (get "errors") in
    Some (ErrorsResponse.mk errors)).

Module KeyStats.
Record t : Type := mk {
  apiKeyId : option string; keyName : option string; keyPrefix : option string;
  requestCount : stat; totalBytes : stat; avgLatencyMs : stat;
  lastUsed : option string }.
End KeyStats.

Definition KeyStatsSchema : Schema KeyStats.t :=
  z_object (fun get =>
    let? apiKeyId := z_nullable z_string (get "apiKeyId") in
    let? keyName := z_nullable z_string (get "keyName") in
    let? keyPrefix := z_nullable z_string (get "keyPrefix") in
    let? requestCount := z_stat (get "requestCount") in
    let? totalBytes := z_stat (get "totalBytes") in
    let? avgLatencyMs := z_stat (get "avgLatencyMs") in
    let? lastUsed := z_nullable z_string (get "lastUsed") in
    Some (KeyStats.mk apiKeyId keyName keyPrefix requestCount totalBytes
                      avgLatencyMs lastUsed)).

Module KeysResponse.
Record t : Type := mk { keys : list KeyStats.t }.
End KeysResponse.

Definition KeysResponseSchema : Schema KeysResponse.t :=
  z_object (fun get =>
    let? keys := z_array KeyStatsSchema (get "keys") in
    Some (KeysResponse.mk keys)).

Module GrowthEntry.
Record t : Type := mk { date : string; vectorCount : stat }.
End GrowthEntry.

Definition GrowthEntrySchema : Schema GrowthEntry.t :=
  z_object (fun get =>
    let? date := z_string (get "date") in
    let? vectorCount := z_stat (get "vectorCount") in
    Some (GrowthEntry.mk date vectorCount)).

Module GrowthResponse.
Record t : Type := mk { growth : list GrowthEntry.t }.
End GrowthResponse.

Definition GrowthResponseSchema : Schema GrowthResponse.t :=
  z_object (fun get =>
    let? growth := z_array GrowthEntrySchema (get "growth") in
    Some (GrowthResponse.mk growth)).

(** [listNamespaces()] *)
Definition listNamespaces (self : EmergentDB) : Client (list string) :=
  resp <- request self "GET" "/vectors/namespaces" NamespacesResponseSchema None ;;
  ret (NamespacesResponse.namespaces resp).

Definition analyticsEndpoints (self : EmergentDB) : Client (list EndpointStats.t) :=
  resp <- request self "GET" "/api/dashboard/analytics/endpoints"
                  EndpointsResponseSchema None ;;
  ret (EndpointsResponse.endpoints resp).

Definition analyticsNamespaces (self : EmergentDB) : Client (list NamespaceStats.t) :=
  resp <- request self "GET" "/api/dashboard/analytics/namespaces"
                  NamespaceAnalyticsResponseSchema None ;;
  ret (NamespaceAnalyticsResponse.namespaces resp).

Definition analyticsLatency (self : EmergentDB) : Client (list LatencyEntry.t) :=
  resp <- request self "GET" "/api/dashboard/analytics/latency"
                  LatencyResponseSchema None ;;
  ret (LatencyResponse.latency resp).

Definition analyticsErrors (self : EmergentDB) : Client (list ErrorEntry.t) :=
  resp <- request self "GET" "/api/dashboard/analytics/errors"
                  ErrorsResponseSchema None ;;
  ret (ErrorsResponse.errors resp).

Definition analyticsKeys (self : EmergentDB) : Client (list KeyStats.t) :=
  resp <- request self "GET" "/api/dashboard/analytics/keys"
                  KeysResponseSchema None ;;
  ret (KeysResponse.keys resp).

Definition analyticsGrowth (self : EmergentDB) : Client (list GrowthEntry.t) :=
  resp <- request self "GET" "/api/dashboard/analytics/growth"
                  GrowthResponseSchema None ;;
  ret (GrowthResponse.growth resp).

(** ** Bodies a server can answer with, and reference definitions for the
    further properties *)

Definition stat_to_json (v : stat) : json :=
  match v with
  | inl s => JStr s
  | inr q => JNum q
  end.

Definition nullable_to_json (o : option string) : json :=
  match o with
  | Some s => JStr s
  | None => JNull
  end.

Definition InsertResult_to_json (r : InsertResult.t) : json :=
  JObj [("success", JBool (InsertResult.success r));
        ("id", JInt (InsertResult.id r));
        ("namespace", JStr (InsertResult.namespace r));
        ("upserted", JBool (InsertResult.upserted r))].

Definition DeleteResult_to_json (r : DeleteResult.t) : json :=
  JObj [("deleted", JBool (DeleteResult.deleted r));
        ("id", JInt (DeleteResult.id r));
        ("namespace", JStr (DeleteResult.namespace r))].

Definition SearchResult_to_json (r : SearchResult.t) : json :=
  JObj (stringify_fields
          [("id", Some (JInt (SearchResult.id r)));
           ("score", Some (JNum (SearchResult.score r)));
           ("metadata", option_map JObj (SearchResult.metadata r))]).

Definition SearchResponse_to_json (r : SearchResponse.t) : json :=
  JObj [("results", JArr (map SearchResult_to_json (SearchResponse.results r)));
        ("count", JInt (SearchResponse.count r));
        ("namespace", JStr (SearchResponse.namespace r))].

Definition EndpointStats_to_json (e : EndpointStats.t) : json :=
  JObj [("endpoint", JStr (EndpointStats.endpoint e));
        ("requestCount", stat_to_json (EndpointStats.requestCount e));
        ("totalBytes", stat_to_json (EndpointStats.totalBytes e));
        ("avgLatencyMs", stat_to_json (EndpointStats.avgLatencyMs e));
        ("p95LatencyMs", stat_to_json (EndpointStats.p95LatencyMs e));
        ("errorCount", stat_to_json (EndpointStats.errorCount e))].

Definition NamespaceStats_to_json (e : NamespaceStats.t) : json :=
  JObj [("namespace", nullable_to_json (NamespaceStats.namespace e));
        ("requestCount", stat_to_json (NamespaceStats.requestCount e));
        ("totalVectors", stat_to_json (NamespaceStats.totalVectors e));
        ("avgLatencyMs", stat_to_json (NamespaceStats.avgLatencyMs e))].

Definition LatencyEntry_to_json (e : LatencyEntry.t) : json :=
  JObj [("date", JStr (LatencyEntry.date e));
        ("p50", stat_to_json (LatencyEntry.p50 e));
        ("p95", stat_to_json (LatencyEntry.p95 e));
        ("p99", stat_to_json (LatencyEntry.p99 e));
        ("requestCount", stat_to_json (LatencyEntry.requestCount e))].

Definition ErrorEntry_to_json (e : ErrorEntry.t) : json :=
  JObj [("date", JStr (ErrorEntry.date e));
        ("totalRequests", stat_to_json (ErrorEntry.totalRequests e));
        ("errorCount", stat_to_json (ErrorEntry.errorCount e));
        ("error4xx", stat_to_json (ErrorEntry.error4xx e));
        ("error5xx", stat_to_json (ErrorEntry.error5xx e))].

Definition KeyStats_to_json (e : KeyStats.t) : json :=
  JObj [("apiKeyId", nullable_to_json (KeyStats.apiKeyId e));
        ("keyName", nullable_to_json (KeyStats.keyName e));
        ("keyPrefix", nullable_to_json (KeyStats.keyPrefix e));
        ("requestCount", stat_to_json (KeyStats.requestCount e));
        ("totalBytes", stat_to_json (KeyStats.totalBytes e));
        ("avgLatencyMs", stat_to_json (KeyStats.avgLatencyMs e));
        ("lastUsed", nullable_to_json (KeyStats.lastUsed e))].

Definition GrowthEntry_to_json (e : GrowthEntry.t) : json :=
  JObj [("date", JStr (GrowthEntry.date e));
        ("vectorCount", stat_to_json (GrowthEntry.vectorCount e))].

(** A server that answers every request with status 200 and the body
    [data]. *)
Definition ok_server (data : json) : Network :=
  fun _ _ => Some {| resp_status := 200; resp_json := Some data |}.

(** The headers and the address every request of the client [self] has. *)
Definition authorized (self : EmergentDB) (req : HttpRequest) : Prop :=
  req_headers req =
    [("Authorization", ("Bearer " ++ apiKey self)%string);
     ("Content-Type", "application/json");
     ("User-Agent", "emergentdb-js/0.1.0")] /\
  String.prefix (baseUrl self) (req_url req) = true.

(** The computation [c] only adds requests to the log, all of them
    [authorized]. *)
Definition sends_authorized {A} (self : EmergentDB) (c : Client A) : Prop :=
  forall net log,
  exists new,
    snd (c net log) = log ++ new /\ Forall (authorized self) new.


(** The body [data] with the fields [extra] added after its own. *)
Definition add_fields (data : json) (extra : list (string * json)) : json :=
  match data with
  | JObj fields => JObj (fields ++ extra)
  | other => other
  end.

(** The GET request of a read operation. *)
Definition get_request (self : EmergentDB) (path : string) : HttpRequest :=
  {| req_method := "GET";
     req_url := (baseUrl self ++ path)%string;
     req_headers := request_headers self;
     req_body := None |}.

(** ** Basic facts: the monad, [fetch] and [request] *)

Lemma bind_ok {A B} (c : Client A) (k : A -> Client B) net log a log' :
  c net log = (Ok a, log') -> bind c k net log = k a net log'.
Proof. intros H. unfold bind. rewrite H. reflexivity. Qed.

Lemma bind_throw {A B} (c : Client A) (k : A -> Client B) net log e log' :
  c net log = (Throw e, log') -> bind c k net log = (Throw e, log').
Proof. intros H. unfold bind. rewrite H. reflexivity. Qed.

(** What [request] does, case by case on the network's answer. *)
Lemma request_unfold {T} self method path (schema : Schema T) payload net log :
  request self method path schema payload net log =
  (match net log (request_of self method path payload) with
   | None => Throw ThrowFetchError
   | Some resp =>
       match resp_json resp with
       | None => Throw ThrowSyntaxError
       | Some data =>
           if resp_ok resp then
             match schema (Some data) with
             | Some value => Ok value
             | None => Throw ThrowSchemaError
             end
           else
             match data with
             | JNull => Throw ThrowTypeError
             | _ =>
                 Throw (ThrowEmergentDBError
                   {| message :=
                        js_or (error_field data)
                              (JStr ("HTTP " ++ nat_to_string (resp_status resp))%string);
                      status := resp_status resp;
                      body := data |})
             end
       end
   end, log ++ [request_of self method path payload]).
Proof.
  unfold request, request_of, bind, fetch, json_of.
  destruct (net log _) as [resp|]; [|reflexivity].
  destruct (resp_json resp) as [data|]; [|reflexivity].
  unfold ret, throw, get_error.
  destruct (resp_ok resp); simpl.
  - destruct (schema (Some data)); reflexivity.
  - destruct data; reflexivity.
Qed.

(** Whatever the outcome, [request] sends exactly one request. *)
Lemma request_log {T} self method path (schema : Schema T) payload net log :
  snd (request self method path schema payload net log) =
  log ++ [request_of self method path payload].
Proof. rewrite request_unfold. reflexivity. Qed.

(** [request] never throws a plain [Error]. *)
Lemma request_no_plain_error {T} self method path (schema : Schema T)
      payload net log msg :
  fst (request self method path schema payload net log) <> Throw (ThrowError msg).
Proof.
  rewrite request_unfold. simpl.
  destruct (net log _) as [resp|]; [|discriminate].
  destruct (resp_json resp) as [data|]; [|discriminate].
  destruct (resp_ok resp).
  - destruct (schema (Some data)); discriminate.
  - destruct data; discriminate.
Qed.

Lemma z_int_JInt (z : Z) : z_int (Some (JInt z)) = Some z.
Proof.
  unfold z_int, JInt, z_number, inject_Z, Qred.
  pose proof (Z.ggcd_gcd z 1) as Hg.
  pose proof (Z.ggcd_correct_divisors z 1) as Hd.
  destruct (Z.ggcd z 1) as [g [a b]]. simpl in *.
  rewrite Z.gcd_1_r in Hg. subst g. destruct Hd as [Ha Hb].
  rewrite Z.mul_1_l in Ha, Hb. subst a. subst b. reflexivity.
Qed.

Lemma parse_all_JInt (l : list Z) : parse_all z_int (map JInt l) = Some l.
Proof.
  induction l as [|z l IH]; [reflexivity|].
  cbn [map parse_all]. rewrite z_int_JInt, IH. reflexivity.
Qed.

(** ** The schemas on sample values *)

Example z_int_accepts_integers :
  z_int (Some (JNum (4 # 2))) = Some 2%Z /\
  z_int (Some (JNum (1 # 2))) = None /\
  z_int (Some (JStr "7")) = None /\
  z_int None = None.
Proof. repeat split; reflexivity. Qed.

(** The two cases of [test-compat.mjs]: a negative id and ill-typed fields
    are rejected. *)
Example VectorEntrySchema_rejects_negative_id :
  VectorEntrySchema
    (Some (JObj [("id", JNum (-1)); ("vector", JArr [JNum (1 # 10)])])) = None /\
  VectorEntrySchema
    (Some (JObj [("id", JNum 1); ("vector", JArr [JNum (1 # 10)])])) =
    Some (1%Z, [(1 # 10)%Q], None).
Proof. split; reflexivity. Qed.

Example InsertResultSchema_rejects_strings :
  InsertResultSchema
    (Some (JObj [("success", JStr "yes"); ("id", JStr "abc")])) = None.
Proof. reflexivity. Qed.

Example SearchOptionsSchema_accepts_in_range :
  SearchOptionsSchema
    (Some (SearchOptions.to_json
             {| SearchOptions.k := Some 100%Q;
                SearchOptions.includeMetadata := Some true;
                SearchOptions.namespace := Some (repeat_char "a"%char 64) |})) =
  Some (Some 100%Z, Some true, Some (repeat_char "a"%char 64)).
Proof. vm_compute. reflexivity. Qed.

Example new_EmergentDB_checks_prefix :
  new_EmergentDB "emdb_test" None = Ok sample_db /\
  (exists msg, new_EmergentDB "sk_test" None = Throw (ThrowError msg)) /\
  (exists msg, new_EmergentDB EmptyString None = Throw (ThrowError msg)).
Proof. repeat split; try reflexivity; eexists; reflexivity. Qed.

(** ** Chunking *)

Section Chunks.
Context {A : Type}.
Variable size : nat.
Hypothesis size_pos : 0 < size.

Lemma lt_div_up (k len : nat) : k < div_up len size <-> k * size < len.
Proof.
  unfold div_up. split; intros H.
  - assert (Hk : S k <= (len + size - 1) / size) by lia.
    pose proof (Nat.Div0.mul_div_le (len + size - 1) size) as Hle.
    apply (Nat.mul_le_mono_l _ _ size) in Hk. nia.
  - apply Nat.lt_succ_r.
    assert (S k <= (len + size - 1) / size); [|lia].
    apply Nat.div_le_lower_bound; nia.
Qed.

Lemma slice_length (a b : nat) (l : list A) :
  length (slice a b l) = Nat.min (b - a) (length l - a).
Proof. unfold slice. rewrite length_firstn, length_skipn. reflexivity. Qed.

Lemma firstn_plus (a b : nat) (l : list A) :
  firstn (a + b) l = firstn a l ++ firstn b (skipn a l).
Proof.
  revert l. induction a as [|a IH]; intros l; [reflexivity|].
  destruct l as [|x l]; simpl.
  - rewrite firstn_nil. reflexivity.
  - rewrite IH. reflexivity.
Qed.

Lemma slice_app (a b c : nat) (l : list A) :
  a <= b -> b <= c -> slice a b l ++ slice b c l = slice a c l.
Proof.
  intros Hab Hbc. unfold slice.
  replace (c - a) with ((b - a) + (c - b)) by lia.
  rewrite firstn_plus, skipn_skipn.
  replace (b - a + a) with b by lia. reflexivity.
Qed.

Lemma concat_chunk_range (l : list A) (m k : nat) :
  concat (map (fun j => slice (j * size) (j * size + size) l) (seq k m)) =
  slice (k * size) ((k + m) * size) l.
Proof.
  revert k. induction m as [|m IH]; intros k.
  - simpl. unfold slice. rewrite Nat.add_0_r, Nat.sub_diag. reflexivity.
  - cbn [seq map concat]. rewrite IH.
    replace (S k * size) with (k * size + size) by lia.
    rewrite slice_app; [|lia|nia].
    f_equal. lia.
Qed.

(** The chunks, put end to end, are the input. *)
Lemma concat_chunks (l : list A) : concat (chunks size l) = l.
Proof.
  unfold chunks. rewrite concat_chunk_range. unfold slice. simpl.
  rewrite Nat.sub_0_r. apply firstn_all2.
  destruct (Nat.le_gt_cases (length l) (div_up (length l) size * size)) as [H|H];
    [exact H|].
  apply lt_div_up in H. lia.
Qed.

(** Every chunk holds at least one and at most [size] entries. *)
Lemma chunks_length (l : list A) :
  Forall (fun c => 1 <= length c <= size) (chunks size l).
Proof.
  unfold chunks. apply Forall_forall. intros c Hc.
  apply in_map_iff in Hc. destruct Hc as [k [<- Hk]].
  apply in_seq in Hk. destruct Hk as [_ Hk]. simpl in Hk.
  apply lt_div_up in Hk. rewrite slice_length. lia.
Qed.

End Chunks.


(** ** [batchInsert] and the loop of [batchInsertAll] *)

Lemma batchInsert_too_long self vectors namespace net log :
  1000 < length vectors ->
  batchInsert self vectors namespace net log =
  (Throw (ThrowError "Batch insert supports max 1000 vectors per request"), log).
Proof.
  intros H. unfold batchInsert. apply Nat.ltb_lt in H. rewrite H. reflexivity.
Qed.

Lemma batchInsert_in_limit self vectors namespace :
  length vectors <= 1000 ->
  batchInsert self vectors namespace =
  request self "POST" "/vectors/batch_insert" BatchInsertResultSchema
          (Some (batchInsert_payload vectors namespace)).
Proof.
  intros H. unfold batchInsert.
  destruct (Nat.ltb_spec 1000 (length vectors)) as [Hlt|_]; [lia|reflexivity].
Qed.

(** A [batchInsert] that returns a value has sent exactly its own request. *)
Lemma batchInsert_ok_log self vectors namespace net log r log' :
  batchInsert self vectors namespace net log = (Ok r, log') ->
  length vectors <= 1000 /\ log' = log ++ [batchInsert_request self namespace vectors].
Proof.
  intros H.
  destruct (Nat.le_gt_cases (length vectors) 1000) as [Hle|Hgt].
  - split; [exact Hle|].
    rewrite batchInsert_in_limit in H by exact Hle.
    apply (f_equal snd) in H. rewrite request_log in H. simpl in H.
    symmetry. exact H.
  - rewrite batchInsert_too_long in H by exact Hgt. discriminate.
Qed.

Lemma batchInsert_each_ok_log self namespace net cs :
  forall log rs log',
    batchInsert_each self namespace cs net log = (Ok rs, log') ->
    log' = log ++ map (batchInsert_request self namespace) cs /\
    length rs = length cs.
Proof.
  induction cs as [|c cs IH]; intros log rs log' H.
  - cbn in H. injection H as <- <-. rewrite app_nil_r. split; reflexivity.
  - cbn [batchInsert_each] in H. unfold bind in H.
    destruct (batchInsert self c namespace net log) as [[r|e] log1] eqn:Hc;
      [|discriminate].
    destruct (batchInsert_each self namespace cs net log1) as [[rs'|e] log2] eqn:Hcs;
      [|discriminate].
    cbn in H. injection H as <- <-.
    apply batchInsert_ok_log in Hc. destruct Hc as [_ ->].
    apply IH in Hcs. destruct Hcs as [-> Hlen].
    cbn [map length]. rewrite <- app_assoc. simpl. split; congruence.
Qed.

(** The chunks before a failing chunk are run, the chunks after it are not. *)
Lemma batchInsert_each_abort self namespace net pre c post :
  forall log rs log1 e log2,
    batchInsert_each self namespace pre net log = (Ok rs, log1) ->
    batchInsert self c namespace net log1 = (Throw e, log2) ->
    batchInsert_each self namespace (pre ++ c :: post) net log = (Throw e, log2).
Proof.
  induction pre as [|p pre IH]; intros log rs log1 e log2 Hpre Hc.
  - cbn in Hpre. injection Hpre as <- <-.
    cbn [app batchInsert_each]. apply bind_throw. exact Hc.
  - cbn [batchInsert_each] in Hpre. unfold bind in Hpre.
    destruct (batchInsert self p namespace net log) as [[r|e'] log'] eqn:Hp;
      [|discriminate].
    destruct (batchInsert_each self namespace pre net log') as [[rs'|e'] log''] eqn:Hrest;
      [|discriminate].
    cbn in Hpre. injection Hpre as <- <-.
    cbn [app batchInsert_each]. rewrite (bind_ok _ _ _ _ Hp).
    apply bind_throw. eapply IH; eassumption.
Qed.

Lemma batchInsertAll_loop_step self vectors namespace i allIds totalNew totalUpserted :
  batchInsertAll_loop self vectors namespace i allIds totalNew totalUpserted =
  if i <? length vectors then
    result <- batchInsert self (slice i (i + BATCH_SIZE) vectors) namespace ;;
    batchInsertAll_loop self vectors namespace (i + BATCH_SIZE)
      (allIds ++ BatchInsertResult.ids result)
      (totalNew + BatchInsertResult.new_count result)%Z
      (totalUpserted + BatchInsertResult.upserted_count result)%Z
  else
    ret {| BatchInsertAllResult.ids := allIds;
           BatchInsertAllResult.count := Z.of_nat (length allIds);
           BatchInsertAllResult.new_count := totalNew;
           BatchInsertAllResult.upserted_count := totalUpserted |}.
Proof.
  simp batchInsertAll_loop.
  destruct (lt_dec i (length vectors)) as [H|H]; simpl.
  - apply Nat.ltb_lt in H. rewrite H. reflexivity.
  - apply Nat.ltb_nlt in H. rewrite H. reflexivity.
Qed.

Lemma aggregate_from_cons allIds totalNew totalUpserted r rs :
  aggregate_from (allIds ++ BatchInsertResult.ids r)
                 (totalNew + BatchInsertResult.new_count r)
                 (totalUpserted + BatchInsertResult.upserted_count r) rs =
  aggregate_from allIds totalNew totalUpserted (r :: rs).
Proof.
  unfold aggregate_from. cbn [map concat sumZ fold_right].
  rewrite <- !app_assoc, <- !Z.add_assoc. reflexivity.
Qed.

Lemma BATCH_SIZE_pos : 0 < BATCH_SIZE.
Proof. unfold BATCH_SIZE. lia. Qed.

(** The loop, entered at the start of chunk [k], runs the chunks from [k] on
    one after the other and adds their results to the accumulators. *)
Lemma batchInsertAll_loop_chunks self vectors namespace net (m : nat) :
  forall k allIds totalNew totalUpserted log,
    k + m = div_up (length vectors) BATCH_SIZE ->
    batchInsertAll_loop self vectors namespace (k * BATCH_SIZE)
                        allIds totalNew totalUpserted net log =
    (rs <- batchInsert_each self namespace
             (map (fun j => slice (j * BATCH_SIZE) (j * BATCH_SIZE + BATCH_SIZE) vectors)
                  (seq k m)) ;;
     ret (aggregate_from allIds totalNew totalUpserted rs)) net log.
Proof.
  induction m as [|m IH]; intros k allIds totalNew totalUpserted log Hk;
    rewrite batchInsertAll_loop_step.
  - assert (Hge : ~ k * BATCH_SIZE < length vectors).
    { intros Hlt. apply (lt_div_up BATCH_SIZE_pos) in Hlt. lia. }
    apply Nat.ltb_nlt in Hge. rewrite Hge. cbn.
    unfold aggregate_from. cbn. rewrite app_nil_r, !Z.add_0_r. reflexivity.
  - assert (Hlt : k * BATCH_SIZE < length vectors).
    { apply (lt_div_up BATCH_SIZE_pos). lia. }
    apply Nat.ltb_lt in Hlt. rewrite Hlt.
    cbn [seq map batchInsert_each].
    destruct (batchInsert self (slice (k * BATCH_SIZE) (k * BATCH_SIZE + BATCH_SIZE) vectors)
                          namespace net log) as [[r|e] log1] eqn:Hb.
    2:{ rewrite (bind_throw _ _ _ _ Hb).
        unfold bind. rewrite Hb. reflexivity. }
    rewrite (bind_ok _ _ _ _ Hb).
    specialize (IH (S k)).
    replace (S k * BATCH_SIZE) with (k * BATCH_SIZE + BATCH_SIZE) in IH by lia.
    rewrite IH by lia. unfold bind. rewrite Hb.
    destruct (batchInsert_each self namespace _ net log1) as [[rs|e] log2];
      [|reflexivity].
    cbn. rewrite aggregate_from_cons. reflexivity.
Qed.

(** [batchInsertAll] is: one [batchInsert] per chunk of the partition, in
    order, then the aggregate of their results. *)
Lemma batchInsertAll_each self vectors namespace net log :
  batchInsertAll self vectors namespace net log =
  (rs <- batchInsert_each self namespace (chunks BATCH_SIZE vectors) ;;
   ret (aggregate rs)) net log.
Proof.
  unfold batchInsertAll, chunks, aggregate.
  apply (batchInsertAll_loop_chunks self vectors namespace net
           (div_up (length vectors) BATCH_SIZE) 0 [] 0%Z 0%Z log).
  reflexivity.
Qed.


(** ** The claims *)




(** C6.  A [batchInsert] of more than 1000 entries throws on the client, and
    no request is sent; for at most 1000 entries that check does not throw:
    the request is sent and whatever is thrown later is not that error. *)
Theorem batchInsert_limit self vectors namespace net log :
  (1000 < length vectors ->
   batchInsert self vectors namespace net log =
   (Throw (ThrowError "Batch insert supports max 1000 vectors per request"), log)) /\
  (length vectors <= 1000 ->
   snd (batchInsert self vectors namespace net log) =
     log ++ [batchInsert_request self namespace vectors] /\
   forall msg,
     fst (batchInsert self vectors namespace net log) <> Throw (ThrowError msg)).
Proof.
  split; intros H.
  - apply batchInsert_too_long. exact H.
  - rewrite batchInsert_in_limit by exact H. split.
    + apply request_log.
    + intros msg. apply request_no_plain_error.
Qed.

(** Runs of C6: 1001 entries are refused, 1000 entries are sent. *)
Lemma batchInsert_limit_witness :
  batchInsert sample_db (sample_vectors 1001) None batch_server [] =
    (Throw (ThrowError "Batch insert supports max 1000 vectors per request"), []) /\
  snd (batchInsert sample_db (sample_vectors 1000) None batch_server []) =
    [batchInsert_request sample_db None (sample_vectors 1000)].
Proof.
  split.
  - apply (proj1 (batchInsert_limit sample_db (sample_vectors 1001) None batch_server [])).
    vm_compute. lia.
  - apply (proj2 (batchInsert_limit sample_db (sample_vectors 1000) None batch_server [])).
    vm_compute. lia.
Defined.

(** C7.  When the chunks before chunk [c] succeed and the [batchInsert] of
    [c] throws [e], [batchInsertAll] throws that same [e]; the requests sent
    are those of the chunks up to [c] and none of a later chunk, and the
    outcome carries nothing of the results [rs] of the earlier chunks. *)
Theorem batchInsertAll_aborts self vectors namespace net log pre c post rs log1 e log2 :
  chunks BATCH_SIZE vectors = pre ++ c :: post ->
  batchInsert_each self namespace pre net log = (Ok rs, log1) ->
  batchInsert self c namespace net log1 = (Throw e, log2) ->
  batchInsertAll self vectors namespace net log = (Throw e, log2) /\
  log2 = log ++ map (batchInsert_request self namespace) (pre ++ [c]).
Proof.
  intros Hcs Hpre Hc. split.
  - rewrite batchInsertAll_each, Hcs. apply bind_throw.
    eapply batchInsert_each_abort; eassumption.
  - assert (Hlen : length c <= 1000).
    { pose proof (chunks_length BATCH_SIZE_pos vectors) as Hall.
      rewrite Hcs in Hall. apply Forall_app in Hall. destruct Hall as [_ Hall].
      inversion Hall as [|? ? Hck _]. unfold BATCH_SIZE in Hck. lia. }
    apply batchInsert_each_ok_log in Hpre. destruct Hpre as [-> _].
    apply (f_equal snd) in Hc. simpl in Hc.
    rewrite batchInsert_in_limit, request_log in Hc by exact Hlen.
    rewrite <- Hc, map_app, app_assoc. reflexivity.
Qed.

(** A run of C7: 2001 entries, the server fails the second of three chunks;
    two requests are sent. *)
Lemma batchInsertAll_aborts_witness :
  batchInsertAll sample_db (sample_vectors 2001) None failing_server [] =
    (Throw (ThrowEmergentDBError
              {| message := JStr "capacity exceeded";
                 status := 402;
                 body := JObj [("error", JStr "capacity exceeded")] |}),
     map (batchInsert_request sample_db None)
         [slice 0 1000 (sample_vectors 2001);
          slice 1000 2000 (sample_vectors 2001)]).
Proof.
  apply (@batchInsertAll_aborts sample_db (sample_vectors 2001) None
           failing_server []
           [slice 0 1000 (sample_vectors 2001)]
           (slice 1000 2000 (sample_vectors 2001))
           [slice 2000 3000 (sample_vectors 2001)]
           [batch_server_result (slice 0 1000 (sample_vectors 2001))]
           [batchInsert_request sample_db None (slice 0 1000 (sample_vectors 2001))]).
  - vm_compute. reflexivity.
  - vm_compute. reflexivity.
  - vm_compute. reflexivity.
Defined.

(** C8.  On the empty input [batchInsertAll] sends no request and returns the
    aggregate with no id and the three counts at 0. *)
Theorem batchInsertAll_empty self namespace net log :
  batchInsertAll self [] namespace net log =
  (Ok {| BatchInsertAllResult.ids := [];
         BatchInsertAllResult.count := 0;
         BatchInsertAllResult.new_count := 0;
         BatchInsertAllResult.upserted_count := 0 |}, log).
Proof.
  unfold batchInsertAll. rewrite batchInsertAll_loop_step. reflexivity.
Qed.

(** ** The namespace on the wire *)

Lemma namespace_spread_lookup (namespace : option string) :
  lookup "namespace" (stringify_fields (namespace_spread namespace)) =
  sent_namespace namespace.
Proof.
  destruct namespace as [ns|]; [|reflexivity].
  unfold namespace_spread, sent_namespace.
  destruct (String.eqb ns EmptyString); [reflexivity|].
  destruct (String.eqb ns "default"); reflexivity.
Qed.

(** C2, as amended.  For [insert], [batchInsert], [search] and [delete]: the
    request that is sent has no [namespace] field when the argument is
    absent, the empty string or the string [default], and has the argument
    as its [namespace] field for every other string.  The rule differs from
    the one of the spec at the empty string only. *)
Theorem namespace_on_the_wire self namespace net log :
  (forall id vector metadata,
      exists req,
        snd (insert self id vector metadata namespace net log) = log ++ [req] /\
        wire_namespace req = sent_namespace namespace) /\
  (forall vectors,
      length vectors <= 1000 ->
      exists req,
        snd (batchInsert self vectors namespace net log) = log ++ [req] /\
        wire_namespace req = sent_namespace namespace) /\
  (forall vector k includeMetadata,
      exists req,
        snd (search self vector
                    (Some (SearchOptions.mk k includeMetadata namespace))
                    net log) = log ++ [req] /\
        wire_namespace req = sent_namespace namespace) /\
  (forall vector,
      exists req,
        snd (search self vector None net log) = log ++ [req] /\
        wire_namespace req = None) /\
  (forall id,
      exists req,
        snd (delete self id namespace net log) = log ++ [req] /\
        wire_namespace req = sent_namespace namespace) /\
  (namespace <> Some EmptyString ->
   sent_namespace namespace = sent_namespace_spec namespace).
Proof.
  repeat split.
  - intros id vector metadata. eexists. split; [apply request_log|].
    unfold wire_namespace, request_of, insert_payload. cbn [truthy req_body].
    rewrite <- namespace_spread_lookup. destruct metadata; reflexivity.
  - intros vectors Hlen. eexists.
    rewrite batchInsert_in_limit by exact Hlen.
    split; [apply request_log|].
    unfold wire_namespace, request_of, batchInsert_payload. cbn [truthy req_body].
    rewrite <- namespace_spread_lookup. reflexivity.
  - intros vector k includeMetadata. eexists. split; [apply request_log|].
    unfold wire_namespace, request_of, search_payload. cbn [truthy req_body].
    rewrite <- namespace_spread_lookup. reflexivity.
  - intros vector. eexists. split; [apply request_log|]. reflexivity.
  - intros id. eexists. split; [apply request_log|].
    unfold wire_namespace, request_of, delete_payload. cbn [truthy req_body].
    rewrite <- namespace_spread_lookup. reflexivity.
  - intros Hne. destruct namespace as [ns|]; [|reflexivity].
    unfold sent_namespace, sent_namespace_spec.
    destruct (String.eqb_spec ns EmptyString) as [->|_]; [congruence|reflexivity].
Qed.

(** A run of C2: a batch of three entries into the namespace [production]. *)
Lemma namespace_on_the_wire_witness :
  (exists req,
      snd (batchInsert sample_db (sample_vectors 3) (Some "production")
                       batch_server []) = [] ++ [req] /\
      wire_namespace req = sent_namespace (Some "production")) /\
  sent_namespace (Some "production") = sent_namespace_spec (Some "production").
Proof.
  destruct (namespace_on_the_wire sample_db (Some "production") batch_server [])
    as (_ & Hbatch & _ & _ & _ & Hspec).
  split.
  - apply Hbatch. vm_compute. lia.
  - apply Hspec. discriminate.
Defined.

(** C2 as stated fails at the empty string: it is not sent, where the claim
    has it sent as it is. *)
Lemma namespace_empty_counterexample :
  wire_namespace (request_of sample_db "POST" "/vectors/insert"
                    (Some (insert_payload 1 [] None (Some EmptyString)))) = None /\
  snd (insert sample_db 1 [] None (Some EmptyString) batch_server []) =
    [request_of sample_db "POST" "/vectors/insert"
                (Some (JObj [("id", JNum 1); ("vector", JArr [])]))] /\
  sent_namespace_spec (Some EmptyString) = Some (JStr EmptyString).
Proof. repeat split; vm_compute; reflexivity. Qed.

(** ** Response validation *)

Lemma BatchInsertResultSchema_batch_body success ids count namespace new_count upserted_count :
  BatchInsertResultSchema
    (Some (batch_body success ids count namespace new_count upserted_count)) =
  Some (BatchInsertResult.mk success ids count namespace new_count upserted_count).
Proof.
  unfold BatchInsertResultSchema, batch_body, z_object.
  cbn [lookup String.eqb Ascii.eqb Bool.eqb z_boolean z_string z_array].
  rewrite parse_all_JInt, !z_int_JInt. reflexivity.
Qed.

(** What a [request] that returns a value has received. *)
Lemma request_ok_inv {T} self method path (schema : Schema T) payload net log value log' :
  request self method path schema payload net log = (Ok value, log') ->
  exists resp data,
    net log (request_of self method path payload) = Some resp /\
    resp_ok resp = true /\
    resp_json resp = Some data /\
    schema (Some data) = Some value.
Proof.
  rewrite request_unfold. intros H.
  destruct (net log _) as [resp|]; [|discriminate].
  destruct (resp_json resp) as [data|] eqn:Hjson; [|discriminate].
  destruct (resp_ok resp) eqn:Hok.
  - destruct (schema (Some data)) as [v|] eqn:Hs; [|discriminate].
    injection H as <- _. exists resp, data. repeat split; assumption.
  - destruct data; discriminate.
Qed.

(** C3, as amended.  The response validation of [batchInsert] checks the
    types of the fields and not the invariant: a body with any integers as
    [count], [new_count] and [upserted_count] and any list of integer [ids]
    is accepted and returned with these values; a [batchInsert] that returns
    a value returns what the schema reads in the body of a success response.
    The aggregate that [batchInsertAll] returns always has [count] equal to
    the length of its [ids]. *)
Theorem batchInsert_invariant_unchecked :
  (forall success ids count namespace new_count upserted_count,
      BatchInsertResultSchema
        (Some (batch_body success ids count namespace new_count upserted_count)) =
      Some (BatchInsertResult.mk success ids count namespace
                                 new_count upserted_count)) /\
  (forall self vectors namespace net log r log',
      batchInsert self vectors namespace net log = (Ok r, log') ->
      exists resp data,
        net log (batchInsert_request self namespace vectors) = Some resp /\
        resp_ok resp = true /\
        resp_json resp = Some data /\
        BatchInsertResultSchema (Some data) = Some r) /\
  (forall self vectors namespace net log agg log',
      batchInsertAll self vectors namespace net log = (Ok agg, log') ->
      BatchInsertAllResult.count agg =
      Z.of_nat (length (BatchInsertAllResult.ids agg))).
Proof.
  split; [exact BatchInsertResultSchema_batch_body|]. split.
  - intros self vectors namespace net log r log' H.
    destruct (batchInsert_ok_log _ _ _ _ _ H) as [Hlen _].
    rewrite batchInsert_in_limit in H by exact Hlen.
    apply request_ok_inv in H. exact H.
  - intros self vectors namespace net log agg log' H.
    rewrite batchInsertAll_each in H. unfold bind in H.
    destruct (batchInsert_each self namespace _ net log) as [[rs|e] log1];
      [|discriminate].
    cbn in H. injection H as <- _. reflexivity.
Qed.

(** A run of C3: the miscounted answer, as the schema reads it. *)
Lemma batchInsert_invariant_unchecked_witness :
  (let agg := {| BatchInsertAllResult.ids := [7%Z];
                 BatchInsertAllResult.count := 1;
                 BatchInsertAllResult.new_count := 3;
                 BatchInsertAllResult.upserted_count := 2 |} in
   BatchInsertAllResult.count agg =
   Z.of_nat (length (BatchInsertAllResult.ids agg))) /\
  exists resp data,
    miscounting_server [] (batchInsert_request sample_db None [sample_entry 7]) =
      Some resp /\
    resp_ok resp = true /\
    resp_json resp = Some data /\
    BatchInsertResultSchema (Some data) = Some miscounted_result.
Proof.
  destruct batchInsert_invariant_unchecked as (_ & Hone & Hall). split.
  - apply (Hall sample_db [sample_entry 7] None miscounting_server []
                {| BatchInsertAllResult.ids := [7%Z];
                   BatchInsertAllResult.count := 1;
                   BatchInsertAllResult.new_count := 3;
                   BatchInsertAllResult.upserted_count := 2 |}
                [batchInsert_request sample_db None [sample_entry 7]]).
    vm_compute. reflexivity.
  - apply (Hone sample_db [sample_entry 7] None miscounting_server []
                miscounted_result
                [batchInsert_request sample_db None [sample_entry 7]]).
    vm_compute. reflexivity.
Defined.

(** C3 as stated fails: a response with one id, [count] 5, [new_count] 3 and
    [upserted_count] 2 passes the validation and is returned. *)
Lemma batchInsert_invariant_counterexample :
  fst (batchInsert sample_db [sample_entry 7] None miscounting_server []) =
    Ok miscounted_result /\
  BatchInsertResult.count miscounted_result = 5%Z /\
  Z.of_nat (length (BatchInsertResult.ids miscounted_result)) = 1%Z /\
  BatchInsertResult.count miscounted_result <>
    Z.of_nat (length (BatchInsertResult.ids miscounted_result)).
Proof. repeat split; vm_compute; try reflexivity; discriminate. Qed.

(** C9.  A success response whose body fails the schema makes [request]
    throw the schema's error, which is not the error of a non-success
    status, and nothing is returned: so for every schema, so for a search
    response without [count], which the search schema rejects whatever its
    other fields are. *)
Theorem malformed_response_raises :
  (forall T (schema : Schema T) self method path payload net log resp data,
      net log (request_of self method path payload) = Some resp ->
      resp_ok resp = true ->
      resp_json resp = Some data ->
      schema (Some data) = None ->
      request self method path schema payload net log =
      (Throw ThrowSchemaError, log ++ [request_of self method path payload])) /\
  (forall fields,
      lookup "count" fields = None ->
      SearchResponseSchema (Some (JObj fields)) = None) /\
  (forall self vector options net log resp fields,
      net log (search_request self vector options) = Some resp ->
      resp_ok resp = true ->
      resp_json resp = Some (JObj fields) ->
      lookup "count" fields = None ->
      search self vector options net log =
      (Throw ThrowSchemaError, log ++ [search_request self vector options])) /\
  (forall e, ThrowSchemaError <> ThrowEmergentDBError e).
Proof.
  assert (Hgen : forall T (schema : Schema T) self method path payload net log resp data,
      net log (request_of self method path payload) = Some resp ->
      resp_ok resp = true ->
      resp_json resp = Some data ->
      schema (Some data) = None ->
      request self method path schema payload net log =
      (Throw ThrowSchemaError, log ++ [request_of self method path payload])).
  { intros T schema self method path payload net log resp data Hnet Hok Hjson Hs.
    rewrite request_unfold, Hnet, Hjson, Hok, Hs. reflexivity. }
  assert (Hcount : forall fields,
      lookup "count" fields = None ->
      SearchResponseSchema (Some (JObj fields)) = None).
  { intros fields Hc. unfold SearchResponseSchema, z_object.
    rewrite Hc. destruct (z_array SearchResultSchema _); reflexivity. }
  split; [exact Hgen|]. split; [exact Hcount|]. split; [|discriminate].
  intros self vector options net log resp fields Hnet Hok Hjson Hc.
  unfold search. eapply Hgen; eauto.
Qed.

(** Runs of C9: a delete answered with a body that is no object, and a
    search answered without [count]. *)
Lemma malformed_response_raises_witness :
  delete sample_db 1 None search_server_no_count [] =
    (Throw ThrowSchemaError,
     [] ++ [request_of sample_db "POST" "/vectors/delete"
                       (Some (delete_payload 1 None))]) /\
  SearchResponseSchema
    (Some (JObj [("results", JArr []); ("namespace", JStr "default")])) = None /\
  search sample_db [] None search_server_no_count [] =
    (Throw ThrowSchemaError, [] ++ [search_request sample_db [] None]).
Proof.
  destruct malformed_response_raises as (Hgen & Hschema & Hsearch & _).
  split; [|split].
  - apply (Hgen _ DeleteResultSchema sample_db "POST" "/vectors/delete"
                (Some (delete_payload 1 None)) search_server_no_count []
                {| resp_status := 200;
                   resp_json := Some (JObj [("results", JArr []);
                                            ("namespace", JStr "default")]) |}
                (JObj [("results", JArr []); ("namespace", JStr "default")]));
      reflexivity.
  - apply Hschema. reflexivity.
  - apply (Hsearch sample_db [] None search_server_no_count []
                   {| resp_status := 200;
                      resp_json := Some (JObj [("results", JArr []);
                                               ("namespace", JStr "default")]) |}
                   [("results", JArr []); ("namespace", JStr "default")]);
      reflexivity.
Defined.

(** C10.  A success response to [search] whose [results] and [count] are
    valid and which has no [namespace] field is not rejected: [search]
    returns it with the namespace [default]. *)
Theorem search_namespace_defaulted self vector options net log resp fields results count :
  net log (search_request self vector options) = Some resp ->
  resp_ok resp = true ->
  resp_json resp = Some (JObj fields) ->
  z_array SearchResultSchema (lookup "results" fields) = Some results ->
  z_int (lookup "count" fields) = Some count ->
  lookup "namespace" fields = None ->
  search self vector options net log =
  (Ok (SearchResponse.mk results count "default"),
   log ++ [search_request self vector options]).
Proof.
  intros Hnet Hok Hjson Hres Hcount Hns.
  unfold search. rewrite request_unfold. fold (search_request self vector options).
  rewrite Hnet, Hjson, Hok.
  unfold SearchResponseSchema, z_object. rewrite Hres, Hcount, Hns. reflexivity.
Qed.

(** A run of C10: a search answered without [namespace]. *)
Lemma search_namespace_defaulted_witness :
  search sample_db [] None search_server_no_namespace [] =
  (Ok (SearchResponse.mk [] 0 "default"), [] ++ [search_request sample_db [] None]).
Proof.
  apply (@search_namespace_defaulted sample_db [] None
           search_server_no_namespace []
           {| resp_status := 200;
              resp_json := Some (JObj [("results", JArr []); ("count", JInt 0)]) |}
           [("results", JArr []); ("count", JInt 0)]);
    reflexivity.
Defined.

(** ** Non-success responses *)




(** ** Search options *)

Lemma z_int_value (q : Q) (n : Z) :
  z_int (Some (JNum q)) = Some n -> (q == inject_Z n)%Q.
Proof.
  unfold z_int, z_number. intros H.
  destruct (Pos.eqb_spec (Qden (Qred q)) 1) as [Hden|_]; [|discriminate].
  injection H as <-. rewrite <- (Qred_correct q) at 1.
  destruct (Qred q) as [num den]. simpl in *. subst den. reflexivity.
Qed.





(** ** Further properties of the client *)

(** *** Construction *)

(** X1.  The constructor succeeds exactly on the keys that start with
    [emdb_], keeping the key and the base URL given (the public one when none
    is given); on every other key, the empty one too, it throws the plain
    error about the prefix.  It is a pure function: no request is involved. *)
Theorem new_EmergentDB_prefix key base :
  (String.prefix "emdb_" key = true ->
   new_EmergentDB key base =
   Ok {| apiKey := key;
         baseUrl := match base with
                    | Some u => u
                    | None => "https://api.emergentdb.com"
                    end |}) /\
  (String.prefix "emdb_" key = false ->
   new_EmergentDB key base =
   Throw (ThrowError ("API key must start with " ++ dquote ++ "emdb_" ++ dquote)%string)).
Proof.
  unfold new_EmergentDB. split; intros H; rewrite H.
  - destruct key; [discriminate|reflexivity].
  - rewrite orb_true_r. reflexivity.
Qed.

Lemma new_EmergentDB_prefix_witness :
  new_EmergentDB "emdb_live" (Some "http://localhost:8080") =
    Ok {| apiKey := "emdb_live"; baseUrl := "http://localhost:8080" |} /\
  new_EmergentDB "EMDB_live" None =
    Throw (ThrowError ("API key must start with " ++ dquote ++ "emdb_" ++ dquote)%string).
Proof.
  split.
  - apply (proj1 (new_EmergentDB_prefix "emdb_live" (Some "http://localhost:8080"))).
    reflexivity.
  - apply (proj2 (new_EmergentDB_prefix "EMDB_live" None)). reflexivity.
Defined.

(** *** The outcomes of [request] *)



(** X3.  The body is decoded before the status is looked at: a response
    whose body is not JSON makes [request] throw the decoding error at every
    status, a non-success one too, and no [EmergentDBError]; a [fetch] that is
    rejected makes it throw that rejection.  In both cases the request has
    been sent once. *)
Theorem request_undecodable T (schema : Schema T) self method path payload net log :
  (forall resp,
      net log (request_of self method path payload) = Some resp ->
      resp_json resp = None ->
      request self method path schema payload net log =
      (Throw ThrowSyntaxError, log ++ [request_of self method path payload])) /\
  (net log (request_of self method path payload) = None ->
   request self method path schema payload net log =
   (Throw ThrowFetchError, log ++ [request_of self method path payload])).
Proof.
  split.
  - intros resp Hnet Hjson. rewrite request_unfold, Hnet, Hjson. reflexivity.
  - intros Hnet. rewrite request_unfold, Hnet. reflexivity.
Qed.

Lemma request_undecodable_witness :
  insert sample_db 1 [] None None
         (fun _ _ => Some {| resp_status := 502; resp_json := None |}) [] =
    (Throw ThrowSyntaxError,
     [] ++ [request_of sample_db "POST" "/vectors/insert"
                       (Some (insert_payload 1 [] None None))]) /\
  insert sample_db 1 [] None None (fun _ _ => None) [] =
    (Throw ThrowFetchError,
     [] ++ [request_of sample_db "POST" "/vectors/insert"
                       (Some (insert_payload 1 [] None None))]).
Proof.
  split.
  - apply (proj1 (@request_undecodable _ InsertResultSchema sample_db "POST"
                    "/vectors/insert" (Some (insert_payload 1 [] None None))
                    (fun _ _ => Some {| resp_status := 502; resp_json := None |}) [])
                 {| resp_status := 502; resp_json := None |});
      reflexivity.
  - apply (proj2 (@request_undecodable _ InsertResultSchema sample_db "POST"
                    "/vectors/insert" (Some (insert_payload 1 [] None None))
                    (fun _ _ => None) []));
      reflexivity.
Defined.

(** *** What is sent *)

Lemma sends_authorized_ret {A} self (a : A) : sends_authorized self (ret a).
Proof.
  intros net log. exists []. rewrite app_nil_r. split; [reflexivity|constructor].
Qed.

Lemma sends_authorized_throw {A} self e : sends_authorized self (@throw A e).
Proof.
  intros net log. exists []. rewrite app_nil_r. split; [reflexivity|constructor].
Qed.

Lemma sends_authorized_bind {A B} self (c : Client A) (k : A -> Client B) :
  sends_authorized self c ->
  (forall a, sends_authorized self (k a)) ->
  sends_authorized self (bind c k).
Proof.
  intros Hc Hk net log. unfold bind.
  destruct (Hc net log) as (new1 & Hlog1 & Hall1).
  destruct (c net log) as [[a|e] log1]; simpl in Hlog1; subst log1.
  - destruct (Hk a net (log ++ new1)) as (new2 & Hlog2 & Hall2).
    exists (new1 ++ new2). rewrite Hlog2, app_assoc.
    split; [reflexivity|]. apply Forall_app. split; assumption.
  - exists new1. split; [reflexivity|assumption].
Qed.

Lemma prefix_append (a b : string) : String.prefix a (a ++ b)%string = true.
Proof.
  induction a as [|c a IH]; simpl.
  - destruct b; reflexivity.
  - rewrite IH. destruct (Ascii.ascii_dec c c); [reflexivity|congruence].
Qed.

Lemma sends_authorized_request {T} self method path (schema : Schema T) payload :
  sends_authorized self (request self method path schema payload).
Proof.
  intros net log. exists [request_of self method path payload].
  split; [apply request_log|].
  constructor; [|constructor]. split; [reflexivity|].
  apply prefix_append.
Qed.

Lemma sends_authorized_batchInsert self vectors namespace :
  sends_authorized self (batchInsert self vectors namespace).
Proof.
  unfold batchInsert. destruct (1000 <? length vectors).
  - apply sends_authorized_throw.
  - apply sends_authorized_request.
Qed.

Lemma sends_authorized_each self namespace cs :
  sends_authorized self (batchInsert_each self namespace cs).
Proof.
  induction cs as [|c cs IH]; cbn [batchInsert_each].
  - apply sends_authorized_ret.
  - apply sends_authorized_bind; [apply sends_authorized_batchInsert|].
    intros r. apply sends_authorized_bind; [exact IH|].
    intros rs. apply sends_authorized_ret.
Qed.

(** X4.  Whatever the network does, every operation of a client leaves the
    requests already in the log as they are and adds only requests that
    carry the bearer token of that client's key, the JSON content type and
    the client's user agent, and whose address starts with the client's base
    URL. *)
Theorem operations_send_authorized self :
  (forall id vector metadata namespace,
      sends_authorized self (insert self id vector metadata namespace)) /\
  (forall vectors namespace,
      sends_authorized self (batchInsert self vectors namespace)) /\
  (forall vectors namespace,
      sends_authorized self (batchInsertAll self vectors namespace)) /\
  (forall vector options, sends_authorized self (search self vector options)) /\
  (forall id namespace, sends_authorized self (delete self id namespace)) /\
  sends_authorized self (listNamespaces self) /\
  sends_authorized self (analyticsEndpoints self) /\
  sends_authorized self (analyticsNamespaces self) /\
  sends_authorized self (analyticsLatency self) /\
  sends_authorized self (analyticsErrors self) /\
  sends_authorized self (analyticsKeys self) /\
  sends_authorized self (analyticsGrowth self).
Proof.
  assert (Hget : forall T U (schema : Schema T) path (f : T -> U),
             sends_authorized self
               (resp <- request self "GET" path schema None ;; ret (f resp))).
  { intros T U schema path f.
    apply sends_authorized_bind; [apply sends_authorized_request|].
    intros a. apply sends_authorized_ret. }
  repeat split;
    try (intros; apply sends_authorized_request);
    try (intros; apply sends_authorized_batchInsert);
    try apply Hget.
  intros vectors namespace net log.
  rewrite batchInsertAll_each.
  apply (@sends_authorized_bind _ _ self _ _
           (sends_authorized_each self namespace _)
           (fun rs => sends_authorized_ret self (aggregate rs)) net log).
Qed.

(** X5.  Each of the seven read operations sends exactly one request,
    whatever comes back: a GET to its own path under the base URL, with no
    body. *)
Theorem read_operations_send_one_get self net log :
  snd (listNamespaces self net log) =
    log ++ [get_request self "/vectors/namespaces"] /\
  snd (analyticsEndpoints self net log) =
    log ++ [get_request self "/api/dashboard/analytics/endpoints"] /\
  snd (analyticsNamespaces self net log) =
    log ++ [get_request self "/api/dashboard/analytics/namespaces"] /\
  snd (analyticsLatency self net log) =
    log ++ [get_request self "/api/dashboard/analytics/latency"] /\
  snd (analyticsErrors self net log) =
    log ++ [get_request self "/api/dashboard/analytics/errors"] /\
  snd (analyticsKeys self net log) =
    log ++ [get_request self "/api/dashboard/analytics/keys"] /\
  snd (analyticsGrowth self net log) =
    log ++ [get_request self "/api/dashboard/analytics/growth"].
Proof.
  assert (Hget : forall T U (schema : Schema T) path (f : T -> U),
             snd ((resp <- request self "GET" path schema None ;; ret (f resp))
                    net log) =
             log ++ [get_request self path]).
  { intros T U schema path f. unfold bind.
    pose proof (request_log self "GET" path schema None net log) as Hlog.
    destruct (request self "GET" path schema None net log) as [[a|e] log1];
      exact Hlog. }
  repeat split; apply Hget.
Qed.

(** X6.  A default spelled out is the same as a default left out.  [insert],
    [batchInsert], [batchInsertAll], [delete] and [search] called with the
    namespace [default], or with the empty string, are the very computations
    they are without a namespace, and a [search] with [k] 10, no metadata and
    such a namespace is the [search] without options. *)
Theorem default_namespace_is_none self (ns : string) :
  ns = "default" \/ ns = EmptyString ->
  (forall id vector metadata,
      insert self id vector metadata (Some ns) =
      insert self id vector metadata None) /\
  (forall vectors,
      batchInsert self vectors (Some ns) = batchInsert self vectors None) /\
  (forall vectors net log,
      batchInsertAll self vectors (Some ns) net log =
      batchInsertAll self vectors None net log) /\
  (forall id, delete self id (Some ns) = delete self id None) /\
  (forall vector k includeMetadata,
      search self vector (Some (SearchOptions.mk k includeMetadata (Some ns))) =
      search self vector (Some (SearchOptions.mk k includeMetadata None))) /\
  (forall vector,
      search self vector
             (Some (SearchOptions.mk (Some 10%Q) (Some false) (Some ns))) =
      search self vector None).
Proof.
  intros Hns.
  assert (Hbatch : forall vectors,
             batchInsert self vectors (Some ns) = batchInsert self vectors None).
  { intros vectors. destruct Hns as [-> | ->]; reflexivity. }
  repeat split.
  - intros id vector metadata. destruct Hns as [-> | ->]; reflexivity.
  - exact Hbatch.
  - intros vectors net log. rewrite !batchInsertAll_each.
    assert (Heach : forall cs, batchInsert_each self (Some ns) cs =
                               batchInsert_each self None cs).
    { induction cs as [|c cs IH]; [reflexivity|].
      cbn [batchInsert_each]. rewrite Hbatch, IH. reflexivity. }
    rewrite Heach. reflexivity.
  - intros id. destruct Hns as [-> | ->]; reflexivity.
  - intros vector k includeMetadata. destruct Hns as [-> | ->]; reflexivity.
  - intros vector. destruct Hns as [-> | ->]; reflexivity.
Qed.

Lemma default_namespace_is_none_witness :
  batchInsertAll sample_db (sample_vectors 3) (Some "default") batch_server [] =
  batchInsertAll sample_db (sample_vectors 3) None batch_server [].
Proof.
  apply (default_namespace_is_none sample_db (ns := "default")).
  left. reflexivity.
Defined.

(** *** More on [batchInsertAll] *)

Lemma div_up_small (size len : nat) :
  1 <= len <= size -> div_up len size = 1.
Proof.
  intros H. assert (Hpos : 0 < size) by lia.
  pose proof (lt_div_up Hpos 0 len) as H0.
  pose proof (lt_div_up Hpos 1 len) as H1.
  destruct (div_up len size) as [|[|n]]; [| reflexivity |].
  - exfalso. assert (0 * size < len) by lia. apply H0 in H2. lia.
  - exfalso. assert (1 < S (S n)) by lia. apply H1 in H2. lia.
Qed.

Lemma chunks_single {A} (size : nat) (l : list A) :
  1 <= length l <= size -> chunks size l = [l].
Proof.
  intros H. unfold chunks. rewrite (div_up_small H). cbn [seq map].
  unfold slice. cbn [Nat.mul Nat.add skipn]. rewrite Nat.sub_0_r.
  rewrite firstn_all2 by lia. reflexivity.
Qed.

(** X7.  On an input of 1 to 1000 entries [batchInsertAll] is one
    [batchInsert] of the whole input: the same request, the same exception
    when it throws, and on success the [ids], [new_count] and
    [upserted_count] of that result, with [count] the number of ids (the
    result's own [count], [success] and [namespace] are dropped). *)
Theorem batchInsertAll_single_chunk self vectors namespace net log :
  1 <= length vectors <= 1000 ->
  batchInsertAll self vectors namespace net log =
  (r <- batchInsert self vectors namespace ;;
   ret {| BatchInsertAllResult.ids := BatchInsertResult.ids r;
          BatchInsertAllResult.count :=
            Z.of_nat (length (BatchInsertResult.ids r));
          BatchInsertAllResult.new_count := BatchInsertResult.new_count r;
          BatchInsertAllResult.upserted_count :=
            BatchInsertResult.upserted_count r |}) net log.
Proof.
  intros H. rewrite batchInsertAll_each.
  rewrite (chunks_single (size := BATCH_SIZE)) by (unfold BATCH_SIZE; lia).
  cbn [batchInsert_each]. unfold bind.
  destruct (batchInsert self vectors namespace net log) as [[r|e] log1];
    [|reflexivity].
  cbn. unfold aggregate, aggregate_from. cbn.
  rewrite app_nil_r, !Z.add_0_r. reflexivity.
Qed.

Lemma batchInsertAll_single_chunk_witness :
  batchInsertAll sample_db (sample_vectors 3) None batch_server [] =
  (Ok {| BatchInsertAllResult.ids := [1%Z; 2%Z; 3%Z];
         BatchInsertAllResult.count := 3;
         BatchInsertAllResult.new_count := 3;
         BatchInsertAllResult.upserted_count := 0 |},
   [batchInsert_request sample_db None (sample_vectors 3)]).
Proof.
  rewrite (@batchInsertAll_single_chunk sample_db (sample_vectors 3) None
             batch_server []).
  - vm_compute. reflexivity.
  - vm_compute. lia.
Defined.










Lemma batchInsert_each_prefix self namespace net cs :
  Forall (fun c => length c <= 1000) cs ->
  forall log,
  exists j,
    j <= length cs /\
    snd (batchInsert_each self namespace cs net log) =
      log ++ map (batchInsert_request self namespace) (firstn j cs) /\
    (forall rs, fst (batchInsert_each self namespace cs net log) = Ok rs ->
                j = length cs) /\
    (forall e, fst (batchInsert_each self namespace cs net log) = Throw e ->
               1 <= j).
Proof.
  induction 1 as [|c cs Hc _ IH]; intros log.
  - exists 0. cbn. rewrite app_nil_r. repeat split; try lia. discriminate.
  - cbn [batchInsert_each]. unfold bind.
    pose proof (request_log self "POST" "/vectors/batch_insert"
                  BatchInsertResultSchema
                  (Some (batchInsert_payload c namespace)) net log) as Hlog.
    rewrite <- batchInsert_in_limit in Hlog by exact Hc.
    fold (batchInsert_request self namespace c) in Hlog.
    destruct (batchInsert self c namespace net log) as [[r|e] log1];
      simpl in Hlog; subst log1.
    + destruct (IH (log ++ [batchInsert_request self namespace c]))
        as (j & Hj & Hsnd & Hok & Hthrow).
      exists (S j). cbn [length firstn map].
      destruct (batchInsert_each self namespace cs net _) as [[rs|e] log2];
        simpl in *; subst log2; rewrite <- app_assoc; simpl.
      * repeat split; try lia; try discriminate.
        intros rs' _. rewrite (Hok rs eq_refl). reflexivity.
      * repeat split; try lia; discriminate.
    + exists 1. cbn [length firstn map]. simpl.
      repeat split; try lia; discriminate.
Qed.

(** X9.  Whatever the network does, the requests [batchInsertAll] sends are
    the requests of the first [j] chunks of the input, in order, once each,
    for some [j] that is at most the number of chunks, [ceil(n / 1000)]: all
    of them when it returns, at least one when it throws.  No chunk is sent
    twice, skipped or sent out of order. *)
Theorem batchInsertAll_requests_prefix self vectors namespace net log :
  exists j,
    j <= div_up (length vectors) 1000 /\
    snd (batchInsertAll self vectors namespace net log) =
      log ++ map (batchInsert_request self namespace)
                 (firstn j (chunks BATCH_SIZE vectors)) /\
    (forall agg, fst (batchInsertAll self vectors namespace net log) = Ok agg ->
                 j = div_up (length vectors) 1000) /\
    (forall e, fst (batchInsertAll self vectors namespace net log) = Throw e ->
               1 <= j).
Proof.
  assert (Hall : Forall (fun c : list VectorEntry.t => length c <= 1000)
                        (chunks BATCH_SIZE vectors)).
  { eapply Forall_impl; [|apply (chunks_length BATCH_SIZE_pos)].
    intros c Hc. unfold BATCH_SIZE in Hc. lia. }
  destruct (batchInsert_each_prefix self namespace net Hall log)
    as (j & Hj & Hsnd & Hok & Hthrow).
  assert (Hn : length (chunks BATCH_SIZE vectors) = div_up (length vectors) 1000).
  { unfold chunks. rewrite length_map, length_seq. reflexivity. }
  exists j. rewrite batchInsertAll_each. unfold bind.
  destruct (batchInsert_each self namespace (chunks BATCH_SIZE vectors) net log)
    as [[rs|e] log1]; simpl in *; subst log1.
  - repeat split; try lia; try discriminate.
    intros agg _. rewrite <- Hn. apply (Hok rs eq_refl).
  - repeat split; try lia; try discriminate.
    intros e' _. apply (Hthrow e eq_refl).
Qed.

Lemma body_vectors_batchInsert_request self namespace chunk :
  body_vectors (batchInsert_request self namespace chunk) =
  map VectorEntry.to_json chunk.
Proof. reflexivity. Qed.

(** X10.  When [batchInsertAll] returns, the entries on the wire are the
    input: the [vectors] arrays of the requests it has sent, put end to end,
    are the encoded entries of the input, each once and in the input's
    order. *)
Theorem batchInsertAll_sends_every_entry self vectors namespace net log agg log' :
  batchInsertAll self vectors namespace net log = (Ok agg, log') ->
  exists new,
    log' = log ++ new /\
    concat (map body_vectors new) = map VectorEntry.to_json vectors.
Proof.
  intros H. rewrite batchInsertAll_each in H. unfold bind in H.
  destruct (batchInsert_each self namespace (chunks BATCH_SIZE vectors) net log)
    as [[rs|e] log1] eqn:Heach; [|discriminate].
  cbn in H. injection H as _ <-.
  apply batchInsert_each_ok_log in Heach. destruct Heach as [-> _].
  eexists. split; [reflexivity|].
  rewrite map_map.
  rewrite (map_ext _ (map VectorEntry.to_json)
                   (body_vectors_batchInsert_request self namespace)).
  rewrite <- concat_map, (concat_chunks BATCH_SIZE_pos). reflexivity.
Qed.

Lemma batchInsertAll_sends_every_entry_witness :
  exists new,
    map (batchInsert_request sample_db None)
        (chunks BATCH_SIZE (sample_vectors 1001)) = [] ++ new /\
    concat (map body_vectors new) =
      map VectorEntry.to_json (sample_vectors 1001).
Proof.
  apply (@batchInsertAll_sends_every_entry sample_db (sample_vectors 1001) None
           batch_server []
           (aggregate (map batch_server_result
                           (chunks BATCH_SIZE (sample_vectors 1001))))).
  vm_compute. reflexivity.
Defined.



(** X12.  [batchInsertAll] never runs into the limit of [batchInsert]: for
    no input and no network does it throw a plain [Error], the one of the
    1000-entry check included. *)
Theorem batchInsertAll_never_over_limit self vectors namespace net log msg :
  fst (batchInsertAll self vectors namespace net log) <> Throw (ThrowError msg).
Proof.
  rewrite batchInsertAll_each. unfold bind.
  assert (Hall : Forall (fun c : list VectorEntry.t => length c <= 1000)
                        (chunks BATCH_SIZE vectors)).
  { eapply Forall_impl; [|apply (chunks_length BATCH_SIZE_pos)].
    intros c Hc. unfold BATCH_SIZE in Hc. lia. }
  revert log. induction Hall as [|c cs Hc _ IH]; intros log.
  - cbn. discriminate.
  - cbn [batchInsert_each]. unfold bind in *.
    pose proof (@request_no_plain_error _ self "POST" "/vectors/batch_insert"
                  BatchInsertResultSchema
                  (Some (batchInsert_payload c namespace)) net log msg) as Hno.
    rewrite <- batchInsert_in_limit in Hno by exact Hc.
    destruct (batchInsert self c namespace net log) as [[r|e] log1];
      [|simpl in *; intros Heq; apply Hno; congruence].
    specialize (IH log1).
    destruct (batchInsert_each self namespace cs net log1) as [[rs|e] log2];
      [discriminate|exact IH].
Qed.

(** A run of X9: the second of three chunks fails. *)
Lemma batchInsertAll_requests_prefix_witness :
  exists j,
    j <= div_up (length (sample_vectors 2001)) 1000 /\
    1 <= j /\
    snd (batchInsertAll sample_db (sample_vectors 2001) None failing_server []) =
      [] ++ map (batchInsert_request sample_db None)
                (firstn j (chunks BATCH_SIZE (sample_vectors 2001))).
Proof.
  destruct (batchInsertAll_requests_prefix sample_db (sample_vectors 2001) None
              failing_server []) as (j & Hj & Hsnd & _ & Hthrow).
  exists j. split; [exact Hj|]. split; [|exact Hsnd].
  eapply Hthrow. vm_compute. reflexivity.
Defined.

(** *** The schemas *)

Lemma parse_all_map {T} (s : Schema T) (enc : T -> json) (l : list T) :
  (forall x, s (Some (enc x)) = Some x) ->
  parse_all s (map enc l) = Some l.
Proof.
  intros Henc. induction l as [|x l IH]; [reflexivity|].
  cbn [map parse_all]. rewrite Henc, IH. reflexivity.
Qed.

Lemma SearchResultSchema_to_json (r : SearchResult.t) :
  SearchResultSchema (Some (SearchResult_to_json r)) = Some r.
Proof.
  destruct r as [id score [metadata|]];
    unfold SearchResultSchema, SearchResult_to_json, z_object;
    cbn [SearchResult.id SearchResult.score SearchResult.metadata option_map
         stringify_fields lookup String.eqb Ascii.eqb Bool.eqb];
    rewrite z_int_JInt; reflexivity.
Qed.

Lemma InsertResultSchema_to_json r extra :
  InsertResultSchema (Some (add_fields (InsertResult_to_json r) extra)) = Some r.
Proof.
  destruct r as [success id namespace upserted].
  unfold InsertResultSchema, InsertResult_to_json, add_fields, z_object.
  cbn [InsertResult.success InsertResult.id InsertResult.namespace
       InsertResult.upserted app lookup String.eqb Ascii.eqb Bool.eqb
       z_boolean z_string].
  rewrite z_int_JInt. reflexivity.
Qed.

Lemma DeleteResultSchema_to_json r extra :
  DeleteResultSchema (Some (add_fields (DeleteResult_to_json r) extra)) = Some r.
Proof.
  destruct r as [deleted id namespace].
  unfold DeleteResultSchema, DeleteResult_to_json, add_fields, z_object.
  cbn [DeleteResult.deleted DeleteResult.id DeleteResult.namespace
       app lookup String.eqb Ascii.eqb Bool.eqb z_boolean z_string].
  rewrite z_int_JInt. reflexivity.
Qed.

Lemma SearchResponseSchema_to_json r extra :
  SearchResponseSchema (Some (add_fields (SearchResponse_to_json r) extra)) = Some r.
Proof.
  destruct r as [results count namespace].
  unfold SearchResponseSchema, SearchResponse_to_json, add_fields, z_object.
  cbn [SearchResponse.results SearchResponse.count SearchResponse.namespace
       app lookup String.eqb Ascii.eqb Bool.eqb z_array z_default z_string].
  rewrite (parse_all_map _ _ results SearchResultSchema_to_json), z_int_JInt.
  reflexivity.
Qed.

Lemma BatchInsertResultSchema_add_fields success ids count namespace
      new_count upserted_count extra :
  BatchInsertResultSchema
    (Some (add_fields
             (batch_body success ids count namespace new_count upserted_count)
             extra)) =
  Some (BatchInsertResult.mk success ids count namespace new_count upserted_count).
Proof.
  unfold BatchInsertResultSchema, batch_body, add_fields, z_object.
  cbn [app lookup String.eqb Ascii.eqb Bool.eqb z_boolean z_string z_array].
  rewrite parse_all_JInt, !z_int_JInt. reflexivity.
Qed.

(** [request] returns what the schema reads in the body of a success
    response. *)
Lemma request_returns {T} self method path (schema : Schema T) payload
      net log resp data value :
  net log (request_of self method path payload) = Some resp ->
  resp_ok resp = true ->
  resp_json resp = Some data ->
  schema (Some data) = Some value ->
  request self method path schema payload net log =
  (Ok value, log ++ [request_of self method path payload]).
Proof.
  intros Hnet Hok Hjson Hs.
  rewrite request_unfold, Hnet, Hjson, Hok, Hs. reflexivity.
Qed.

(** X13.  [insert], [delete], [search] and [batchInsert] return the
    server's answer as it is: when the response has a success status and its
    body is a result value written out as JSON (the search results in any
    number and with or without metadata), that value is returned, field for
    field, after the one request; fields of the body that the schema does
    not name do not matter. *)
Theorem operations_return_the_answer self net log resp extra :
  resp_ok resp = true ->
  (forall id vector metadata namespace r,
      net log (request_of self "POST" "/vectors/insert"
                 (Some (insert_payload id vector metadata namespace))) = Some resp ->
      resp_json resp = Some (add_fields (InsertResult_to_json r) extra) ->
      insert self id vector metadata namespace net log =
      (Ok r, log ++ [request_of self "POST" "/vectors/insert"
                       (Some (insert_payload id vector metadata namespace))])) /\
  (forall id namespace r,
      net log (request_of self "POST" "/vectors/delete"
                 (Some (delete_payload id namespace))) = Some resp ->
      resp_json resp = Some (add_fields (DeleteResult_to_json r) extra) ->
      delete self id namespace net log =
      (Ok r, log ++ [request_of self "POST" "/vectors/delete"
                       (Some (delete_payload id namespace))])) /\
  (forall vector options r,
      net log (search_request self vector options) = Some resp ->
      resp_json resp = Some (add_fields (SearchResponse_to_json r) extra) ->
      search self vector options net log =
      (Ok r, log ++ [search_request self vector options])) /\
  (forall vectors namespace success ids count ns new_count upserted_count,
      length vectors <= 1000 ->
      net log (batchInsert_request self namespace vectors) = Some resp ->
      resp_json resp =
        Some (add_fields
                (batch_body success ids count ns new_count upserted_count) extra) ->
      batchInsert self vectors namespace net log =
      (Ok (BatchInsertResult.mk success ids count ns new_count upserted_count),
       log ++ [batchInsert_request self namespace vectors])).
Proof.
  intros Hok. repeat split.
  - intros id vector metadata namespace r Hnet Hjson.
    apply (request_returns _ _ _ _ _ _ _ Hnet Hok Hjson).
    apply InsertResultSchema_to_json.
  - intros id namespace r Hnet Hjson.
    apply (request_returns _ _ _ _ _ _ _ Hnet Hok Hjson).
    apply DeleteResultSchema_to_json.
  - intros vector options r Hnet Hjson.
    apply (request_returns _ _ _ _ _ _ _ Hnet Hok Hjson).
    apply SearchResponseSchema_to_json.
  - intros vectors namespace success ids count ns new_count upserted_count
           Hlen Hnet Hjson.
    rewrite batchInsert_in_limit by exact Hlen.
    apply (request_returns _ _ _ _ _ _ _ Hnet Hok Hjson).
    apply BatchInsertResultSchema_add_fields.
Qed.

(** A run of X13: a search that finds one entry with metadata, answered with
    an extra field. *)
Lemma operations_return_the_answer_witness :
  let r := SearchResponse.mk
             [SearchResult.mk 8001 (1 # 8) (Some [("title", JStr "Python basics")])]
             1 "docs" in
  search sample_db [] None
         (ok_server (add_fields (SearchResponse_to_json r) [("took_ms", JNum 3)]))
         [] =
  (Ok r, [] ++ [search_request sample_db [] None]).
Proof.
  intros r.
  apply (proj1 (proj2 (proj2 (@operations_return_the_answer sample_db
           (ok_server (add_fields (SearchResponse_to_json r) [("took_ms", JNum 3)]))
           []
           {| resp_status := 200;
              resp_json := Some (add_fields (SearchResponse_to_json r)
                                            [("took_ms", JNum 3)]) |}
           [("took_ms", JNum 3)] eq_refl)))); reflexivity.
Defined.

(** X14.  Only the search response has a default: the schemas of the
    [insert], [delete] and [batchInsert] responses reject every body that
    lacks one of their keys, [namespace] included. *)
Theorem required_response_fields fields key :
  lookup key fields = None ->
  (In key ["success"; "id"; "namespace"; "upserted"] ->
   InsertResultSchema (Some (JObj fields)) = None) /\
  (In key ["deleted"; "id"; "namespace"] ->
   DeleteResultSchema (Some (JObj fields)) = None) /\
  (In key ["success"; "ids"; "count"; "namespace"; "new_count"; "upserted_count"] ->
   BatchInsertResultSchema (Some (JObj fields)) = None).
Proof.
  intros Hkey.
  assert (Hb : z_boolean None = None) by reflexivity.
  assert (Hi : z_int None = None) by reflexivity.
  assert (Hs : z_string None = None) by reflexivity.
  assert (Ha : z_array z_int None = None) by reflexivity.
  repeat split; intros Hin; simpl in Hin;
    repeat (destruct Hin as [<- | Hin]); try contradiction;
    unfold InsertResultSchema, DeleteResultSchema, BatchInsertResultSchema,
      z_object;
    rewrite Hkey, ?Hb, ?Hi, ?Hs, ?Ha;
    repeat match goal with
           | |- context [match ?s (lookup ?k fields) with _ => _ end] =>
               destruct (s (lookup k fields))
           end;
    reflexivity.
Qed.

Lemma required_response_fields_witness :
  InsertResultSchema
    (Some (JObj [("success", JBool true); ("id", JInt 1);
                 ("upserted", JBool false)])) = None.
Proof.
  apply (proj1 (@required_response_fields
                  [("success", JBool true); ("id", JInt 1);
                   ("upserted", JBool false)] "namespace" eq_refl)).
  simpl. tauto.
Defined.

(** *** The read operations *)

Lemma z_stat_to_json (v : stat) : z_stat (Some (stat_to_json v)) = Some v.
Proof. destruct v; reflexivity. Qed.

Lemma z_nullable_to_json (o : option string) :
  z_nullable z_string (Some (nullable_to_json o)) = Some o.
Proof. destruct o; reflexivity. Qed.

Ltac read_back :=
  unfold z_object;
  cbn -[z_stat z_nullable stat_to_json nullable_to_json];
  rewrite ?z_stat_to_json, ?z_nullable_to_json; reflexivity.

Lemma EndpointStatsSchema_to_json e :
  EndpointStatsSchema (Some (EndpointStats_to_json e)) = Some e.
Proof. destruct e. unfold EndpointStatsSchema, EndpointStats_to_json. read_back. Qed.

Lemma NamespaceStatsSchema_to_json e :
  NamespaceStatsSchema (Some (NamespaceStats_to_json e)) = Some e.
Proof. destruct e. unfold NamespaceStatsSchema, NamespaceStats_to_json. read_back. Qed.

Lemma LatencyEntrySchema_to_json e :
  LatencyEntrySchema (Some (LatencyEntry_to_json e)) = Some e.
Proof. destruct e. unfold LatencyEntrySchema, LatencyEntry_to_json. read_back. Qed.

Lemma ErrorEntrySchema_to_json e :
  ErrorEntrySchema (Some (ErrorEntry_to_json e)) = Some e.
Proof. destruct e. unfold ErrorEntrySchema, ErrorEntry_to_json. read_back. Qed.

Lemma KeyStatsSchema_to_json e :
  KeyStatsSchema (Some (KeyStats_to_json e)) = Some e.
Proof. destruct e. unfold KeyStatsSchema, KeyStats_to_json. read_back. Qed.

Lemma GrowthEntrySchema_to_json e :
  GrowthEntrySchema (Some (GrowthEntry_to_json e)) = Some e.
Proof. destruct e. unfold GrowthEntrySchema, GrowthEntry_to_json. read_back. Qed.

(** A read operation returns [f value] when the server answers its GET with
    a success status and a body the schema reads as [value]. *)
Lemma get_returns {T U} self path (schema : Schema T) (f : T -> U)
      net log resp data value :
  net log (get_request self path) = Some resp ->
  resp_ok resp = true ->
  resp_json resp = Some data ->
  schema (Some data) = Some value ->
  (r <- request self "GET" path schema None ;; ret (f r)) net log =
  (Ok (f value), log ++ [get_request self path]).
Proof.
  intros Hnet Hok Hjson Hs. unfold bind. rewrite request_unfold.
  change (request_of self "GET" path None) with (get_request self path).
  rewrite Hnet, Hjson, Hok, Hs. reflexivity.
Qed.

(** X15.  Each read operation returns the array of its own key in the body
    of a success response, element by element and in the body's order:
    [listNamespaces] the strings under [namespaces], the six analytics
    operations the records under [endpoints], [namespaces], [latency],
    [errors], [keys] and [growth], whose statistics may be strings or
    numbers and whose nullable fields may be [null]; what else the body
    holds does not matter. *)
Theorem read_operations_return_the_array self net log resp fields :
  resp_ok resp = true ->
  resp_json resp = Some (JObj fields) ->
  (forall l,
      net log (get_request self "/vectors/namespaces") = Some resp ->
      lookup "namespaces" fields = Some (JArr (map JStr l)) ->
      listNamespaces self net log =
      (Ok l, log ++ [get_request self "/vectors/namespaces"])) /\
  (forall l,
      net log (get_request self "/api/dashboard/analytics/endpoints") = Some resp ->
      lookup "endpoints" fields = Some (JArr (map EndpointStats_to_json l)) ->
      analyticsEndpoints self net log =
      (Ok l, log ++ [get_request self "/api/dashboard/analytics/endpoints"])) /\
  (forall l,
      net log (get_request self "/api/dashboard/analytics/namespaces") = Some resp ->
      lookup "namespaces" fields = Some (JArr (map NamespaceStats_to_json l)) ->
      analyticsNamespaces self net log =
      (Ok l, log ++ [get_request self "/api/dashboard/analytics/namespaces"])) /\
  (forall l,
      net log (get_request self "/api/dashboard/analytics/latency") = Some resp ->
      lookup "latency" fields = Some (JArr (map LatencyEntry_to_json l)) ->
      analyticsLatency self net log =
      (Ok l, log ++ [get_request self "/api/dashboard/analytics/latency"])) /\
  (forall l,
      net log (get_request self "/api/dashboard/analytics/errors") = Some resp ->
      lookup "errors" fields = Some (JArr (map ErrorEntry_to_json l)) ->
      analyticsErrors self net log =
      (Ok l, log ++ [get_request self "/api/dashboard/analytics/errors"])) /\
  (forall l,
      net log (get_request self "/api/dashboard/analytics/keys") = Some resp ->
      lookup "keys" fields = Some (JArr (map KeyStats_to_json l)) ->
      analyticsKeys self net log =
      (Ok l, log ++ [get_request self "/api/dashboard/analytics/keys"])) /\
  (forall l,
      net log (get_request self "/api/dashboard/analytics/growth") = Some resp ->
      lookup "growth" fields = Some (JArr (map GrowthEntry_to_json l)) ->
      analyticsGrowth self net log =
      (Ok l, log ++ [get_request self "/api/dashboard/analytics/growth"])).
Proof.
  intros Hok Hjson.
  assert (Hstr : forall x, z_string (Some (JStr x)) = Some x) by reflexivity.
  repeat split; intros l Hnet Hkey.
  - apply (@get_returns _ _ self _ NamespacesResponseSchema
             NamespacesResponse.namespaces net log resp (JObj fields)
             (NamespacesResponse.mk l) Hnet Hok Hjson).
    unfold NamespacesResponseSchema, z_object. rewrite Hkey. cbn [z_array].
    rewrite (parse_all_map _ _ l Hstr). reflexivity.
  - apply (@get_returns _ _ self _ EndpointsResponseSchema
             EndpointsResponse.endpoints net log resp (JObj fields)
             (EndpointsResponse.mk l) Hnet Hok Hjson).
    unfold EndpointsResponseSchema, z_object. rewrite Hkey. cbn [z_array].
    rewrite (parse_all_map _ _ l EndpointStatsSchema_to_json). reflexivity.
  - apply (@get_returns _ _ self _ NamespaceAnalyticsResponseSchema
             NamespaceAnalyticsResponse.namespaces net log resp (JObj fields)
             (NamespaceAnalyticsResponse.mk l) Hnet Hok Hjson).
    unfold NamespaceAnalyticsResponseSchema, z_object. rewrite Hkey. cbn [z_array].
    rewrite (parse_all_map _ _ l NamespaceStatsSchema_to_json). reflexivity.
  - apply (@get_returns _ _ self _ LatencyResponseSchema
             LatencyResponse.latency net log resp (JObj fields)
             (LatencyResponse.mk l) Hnet Hok Hjson).
    unfold LatencyResponseSchema, z_object. rewrite Hkey. cbn [z_array].
    rewrite (parse_all_map _ _ l LatencyEntrySchema_to_json). reflexivity.
  - apply (@get_returns _ _ self _ ErrorsResponseSchema
             ErrorsResponse.errors net log resp (JObj fields)
             (ErrorsResponse.mk l) Hnet Hok Hjson).
    unfold ErrorsResponseSchema, z_object. rewrite Hkey. cbn [z_array].
    rewrite (parse_all_map _ _ l ErrorEntrySchema_to_json). reflexivity.
  - apply (@get_returns _ _ self _ KeysResponseSchema
             KeysResponse.keys net log resp (JObj fields)
             (KeysResponse.mk l) Hnet Hok Hjson).
    unfold KeysResponseSchema, z_object. rewrite Hkey. cbn [z_array].
    rewrite (parse_all_map _ _ l KeyStatsSchema_to_json). reflexivity.
  - apply (@get_returns _ _ self _ GrowthResponseSchema
             GrowthResponse.growth net log resp (JObj fields)
             (GrowthResponse.mk l) Hnet Hok Hjson).
    unfold GrowthResponseSchema, z_object. rewrite Hkey. cbn [z_array].
    rewrite (parse_all_map _ _ l GrowthEntrySchema_to_json). reflexivity.
Qed.

(** Runs of X15: the namespaces of a tenant, and a usage report whose first
    line has no namespace and a count given as a string. *)
Lemma read_operations_return_the_array_witness :
  listNamespaces sample_db
    (ok_server (JObj [("namespaces", JArr [JStr "default"; JStr "production"])]))
    [] =
    (Ok ["default"; "production"],
     [] ++ [get_request sample_db "/vectors/namespaces"]) /\
  analyticsNamespaces sample_db
    (ok_server (JObj [("namespaces",
                       JArr [JObj [("namespace", JNull);
                                   ("requestCount", JStr "12");
                                   ("totalVectors", JNum 40);
                                   ("avgLatencyMs", JNum (7 # 2))]])]))
    [] =
    (Ok [NamespaceStats.mk None (inl "12") (inr 40%Q) (inr (7 # 2)%Q)],
     [] ++ [get_request sample_db "/api/dashboard/analytics/namespaces"]).
Proof.
  split.
  - apply (proj1 (@read_operations_return_the_array sample_db
             (ok_server (JObj [("namespaces",
                                JArr [JStr "default"; JStr "production"])])) []
             {| resp_status := 200;
                resp_json := Some (JObj [("namespaces",
                                          JArr [JStr "default"; JStr "production"])]) |}
             [("namespaces", JArr [JStr "default"; JStr "production"])]
             eq_refl eq_refl) ["default"; "production"]);
      reflexivity.
  - apply (proj1 (proj2 (proj2 (@read_operations_return_the_array sample_db
             (ok_server (JObj [("namespaces",
                       JArr [JObj [("namespace", JNull);
                                   ("requestCount", JStr "12");
                                   ("totalVectors", JNum 40);
                                   ("avgLatencyMs", JNum (7 # 2))]])])) []
             {| resp_status := 200;
                resp_json := Some (JObj [("namespaces",
                       JArr [JObj [("namespace", JNull);
                                   ("requestCount", JStr "12");
                                   ("totalVectors", JNum 40);
                                   ("avgLatencyMs", JNum (7 # 2))]])]) |}
             [("namespaces",
                       JArr [JObj [("namespace", JNull);
                                   ("requestCount", JStr "12");
                                   ("totalVectors", JNum 40);
                                   ("avgLatencyMs", JNum (7 # 2))]])]
             eq_refl eq_refl)))
             [NamespaceStats.mk None (inl "12") (inr 40%Q) (inr (7 # 2)%Q)]);
      reflexivity.
Defined.

(** X16.  In the analytics schemas a nullable field is not an optional one,
    and a statistic is a string or a number and nothing else: a namespace
    line without the [namespace] key and a key line without one of its four
    nullable keys are rejected, and a growth line is accepted exactly when
    its [vectorCount] is a string or a number. *)
Theorem analytics_fields_strict :
  (forall fields,
      lookup "namespace" fields = None ->
      NamespaceStatsSchema (Some (JObj fields)) = None) /\
  (forall fields key,
      In key ["apiKeyId"; "keyName"; "keyPrefix"; "lastUsed"] ->
      lookup key fields = None ->
      KeyStatsSchema (Some (JObj fields)) = None) /\
  (forall date value,
      GrowthEntrySchema
        (Some (JObj [("date", JStr date); ("vectorCount", value)])) =
      match value with
      | JStr s => Some (GrowthEntry.mk date (inl s))
      | JNum q => Some (GrowthEntry.mk date (inr q))
      | _ => None
      end).
Proof.
  assert (Hn : z_nullable z_string None = None) by reflexivity.
  repeat split.
  - intros fields Hkey. unfold NamespaceStatsSchema, z_object.
    rewrite Hkey, Hn. reflexivity.
  - intros fields key Hin Hkey. simpl in Hin.
    repeat (destruct Hin as [<- | Hin]); try contradiction;
      unfold KeyStatsSchema, z_object; rewrite Hkey, Hn;
      repeat match goal with
             | |- context [match ?s (lookup ?k fields) with _ => _ end] =>
                 destruct (s (lookup k fields))
             end;
      reflexivity.
  - intros date value. destruct value; reflexivity.
Qed.

Lemma analytics_fields_strict_witness :
  NamespaceStatsSchema
    (Some (JObj [("requestCount", JNum 1); ("totalVectors", JNum 1);
                 ("avgLatencyMs", JNum 1)])) = None /\
  KeyStatsSchema
    (Some (JObj [("apiKeyId", JNull); ("keyName", JNull); ("keyPrefix", JNull);
                 ("requestCount", JNum 1); ("totalBytes", JNum 1);
                 ("avgLatencyMs", JNum 1)])) = None.
Proof.
  destruct analytics_fields_strict as (Hns & Hkeys & _). split.
  - apply Hns. reflexivity.
  - apply (Hkeys _ "lastUsed"); [simpl; tauto|reflexivity].
Defined.

(** *** The input schemas *)

Lemma z_int_iff (q : Q) (n : Z) :
  z_int (Some (JNum q)) = Some n <-> (q == inject_Z n)%Q.
Proof.
  split; [apply z_int_value|].
  intros H. rewrite <- (z_int_JInt n).
  unfold z_int, z_number, JInt. rewrite (Qred_complete _ _ H). reflexivity.
Qed.

Lemma parse_all_numbers (l : list Q) : parse_all z_number (map JNum l) = Some l.
Proof. apply parse_all_map. reflexivity. Qed.

Lemma VectorEntrySchema_unfold e :
  VectorEntrySchema (Some (VectorEntry.to_json e)) =
  match z_positive z_int (Some (JNum (VectorEntry.id e))) with
  | Some z => Some (z, VectorEntry.vector e, VectorEntry.metadata e)
  | None => None
  end.
Proof.
  destruct e as [id vector [metadata|]];
    unfold VectorEntrySchema, VectorEntry.to_json, z_object;
    cbn [VectorEntry.id VectorEntry.vector VectorEntry.metadata option_map
         stringify_fields lookup String.eqb Ascii.eqb Bool.eqb z_array];
    rewrite parse_all_numbers;
    destruct (z_positive z_int (Some (JNum id))); reflexivity.
Qed.

(** X17.  [VectorEntrySchema] accepts an entry exactly when its id is a
    positive integer, and then reads the entry back as it is; yet the insert
    operations do not apply it: [batchInsert] sends any entry, accepted or
    not, in its one request. *)
Theorem VectorEntrySchema_positive_integer_id e :
  (forall z,
      (VectorEntry.id e == inject_Z z)%Q -> (0 < z)%Z ->
      VectorEntrySchema (Some (VectorEntry.to_json e)) =
      Some (z, VectorEntry.vector e, VectorEntry.metadata e)) /\
  (VectorEntrySchema (Some (VectorEntry.to_json e)) <> None ->
   exists z, (VectorEntry.id e == inject_Z z)%Q /\ (0 < z)%Z) /\
  (forall self namespace net log,
      snd (batchInsert self [e] namespace net log) =
      log ++ [batchInsert_request self namespace [e]]).
Proof.
  repeat split.
  - intros z Hz Hpos. rewrite VectorEntrySchema_unfold. unfold z_positive.
    apply z_int_iff in Hz. rewrite Hz.
    apply Z.ltb_lt in Hpos. rewrite Hpos. reflexivity.
  - rewrite VectorEntrySchema_unfold. unfold z_positive. intros H.
    destruct (z_int (Some (JNum (VectorEntry.id e)))) as [z|] eqn:Hz;
      [|congruence].
    destruct (Z.ltb_spec 0 z) as [Hpos|_]; [|congruence].
    exists z. split; [apply z_int_iff; exact Hz|exact Hpos].
  - intros self namespace net log.
    rewrite batchInsert_in_limit by (simpl; lia). apply request_log.
Qed.

Lemma VectorEntrySchema_positive_integer_id_witness :
  VectorEntrySchema (Some (VectorEntry.to_json (sample_entry 7))) =
    Some (7%Z, [], None) /\
  exists z, (VectorEntry.id (sample_entry 7) == inject_Z z)%Q /\ (0 < z)%Z.
Proof.
  destruct (VectorEntrySchema_positive_integer_id (sample_entry 7))
    as (Hacc & Hinv & _).
  split.
  - apply (Hacc 7%Z); [reflexivity|lia].
  - apply Hinv. vm_compute. discriminate.
Defined.



(** *** Bodies that are no objects *)

Lemma z_object_not_object {T} (shape : (string -> option json) -> option T) data :
  (forall fields, data <> JObj fields) -> z_object shape (Some data) = None.
Proof.
  intros H. destruct data; try reflexivity. exfalso. eapply H. reflexivity.
Qed.

Lemma get_rejects {T U} self path (schema : Schema T) (f : T -> U)
      net log resp data :
  net log (get_request self path) = Some resp ->
  resp_ok resp = true ->
  resp_json resp = Some data ->
  schema (Some data) = None ->
  (r <- request self "GET" path schema None ;; ret (f r)) net log =
  (Throw ThrowSchemaError, log ++ [get_request self path]).
Proof.
  intros Hnet Hok Hjson Hs. unfold bind. rewrite request_unfold.
  change (request_of self "GET" path None) with (get_request self path).
  rewrite Hnet, Hjson, Hok, Hs. reflexivity.
Qed.

(** X19.  No operation returns anything from a success response whose body
    is not a JSON object: on [null], an array, a string, a number or a
    boolean, each of the twelve operations throws the schema's error after
    its one request. *)
Theorem non_object_body_rejected self net resp data :
  (forall log req, net log req = Some resp) ->
  resp_ok resp = true ->
  resp_json resp = Some data ->
  (forall fields, data <> JObj fields) ->
  forall log,
    (forall id vector metadata namespace,
        fst (insert self id vector metadata namespace net log) =
        Throw ThrowSchemaError) /\
    (forall vectors namespace,
        length vectors <= 1000 ->
        fst (batchInsert self vectors namespace net log) = Throw ThrowSchemaError) /\
    (forall vectors namespace,
        vectors <> [] ->
        fst (batchInsertAll self vectors namespace net log) =
        Throw ThrowSchemaError) /\
    (forall vector options,
        fst (search self vector options net log) = Throw ThrowSchemaError) /\
    (forall id namespace,
        fst (delete self id namespace net log) = Throw ThrowSchemaError) /\
    fst (listNamespaces self net log) = Throw ThrowSchemaError /\
    fst (analyticsEndpoints self net log) = Throw ThrowSchemaError /\
    fst (analyticsNamespaces self net log) = Throw ThrowSchemaError /\
    fst (analyticsLatency self net log) = Throw ThrowSchemaError /\
    fst (analyticsErrors self net log) = Throw ThrowSchemaError /\
    fst (analyticsKeys self net log) = Throw ThrowSchemaError /\
    fst (analyticsGrowth self net log) = Throw ThrowSchemaError.
Proof.
  intros Hnet Hok Hjson Hdata log.
  assert (Hreq : forall T (schema : Schema T) method path payload log0,
             schema (Some data) = None ->
             request self method path schema payload net log0 =
             (Throw ThrowSchemaError,
              log0 ++ [request_of self method path payload])).
  { intros T schema method path payload log0 Hs.
    rewrite request_unfold, Hnet, Hjson, Hok, Hs. reflexivity. }
  assert (Hget : forall T U (schema : Schema T) path (f : T -> U),
             schema (Some data) = None ->
             fst ((r <- request self "GET" path schema None ;; ret (f r))
                    net log) = Throw ThrowSchemaError).
  { intros T U schema path f Hs. unfold bind. rewrite Hreq by exact Hs.
    reflexivity. }
  assert (Hbatch : forall vectors namespace log0,
             length vectors <= 1000 ->
             batchInsert self vectors namespace net log0 =
             (Throw ThrowSchemaError,
              log0 ++ [batchInsert_request self namespace vectors])).
  { intros vectors namespace log0 Hlen.
    rewrite batchInsert_in_limit by exact Hlen.
    apply Hreq. apply (z_object_not_object _ Hdata). }
  split.
  { intros. unfold insert. rewrite Hreq; [reflexivity|].
    apply (z_object_not_object _ Hdata). }
  split; [intros vectors namespace Hlen; rewrite Hbatch by exact Hlen; reflexivity|].
  split.
  { intros vectors namespace Hne.
    rewrite batchInsertAll_each.
    pose proof (chunks_length BATCH_SIZE_pos vectors) as Hall.
    pose proof (concat_chunks BATCH_SIZE_pos vectors) as Hcat.
    destruct (chunks BATCH_SIZE vectors) as [|c cs].
    - simpl in Hcat. congruence.
    - inversion Hall as [|? ? Hc _]. unfold BATCH_SIZE in Hc.
      cbn [batchInsert_each]. unfold bind.
      rewrite Hbatch by lia. reflexivity. }
  split.
  { intros. unfold search. rewrite Hreq; [reflexivity|].
    apply (z_object_not_object _ Hdata). }
  split.
  { intros. unfold delete. rewrite Hreq; [reflexivity|].
    apply (z_object_not_object _ Hdata). }
  repeat split; apply Hget; apply (z_object_not_object _ Hdata).
Qed.

(** A run of X19: a server that answers 200 with [null]. *)
Lemma non_object_body_rejected_witness :
  fst (listNamespaces sample_db (ok_server JNull) []) = Throw ThrowSchemaError /\
  fst (batchInsertAll sample_db (sample_vectors 3) None (ok_server JNull) []) =
    Throw ThrowSchemaError.
Proof.
  destruct (@non_object_body_rejected sample_db (ok_server JNull)
              {| resp_status := 200; resp_json := Some JNull |} JNull
              (fun _ _ => eq_refl) eq_refl eq_refl
              (fun fields H => ltac:(discriminate H)) [])
    as (_ & _ & Hall & _ & _ & Hlist & _).
  split; [exact Hlist|].
  apply Hall. discriminate.
Defined.
